(** * Junkcoin chain parameters (chaincfg/junkcoinparams.go)

    A shallow embedding of the two Junkcoin parameter sets, of the genesis
    blocks they point to, and of the helpers of the surrounding packages
    (chainhash, wire, the registry and the consensus policies) that the
    parameters are meant to drive. *)

From Stdlib Require Import ZArith Lia List Sorted Ascii String.
From stdpp Require Import gmap strings list fin_maps.

Local Open Scope Z_scope.

(** ** Outcomes of fallible code

    Go code in this package either returns an [error] or panics; both are
    kept apart from an ordinary value. *)

Inductive Result (E A : Type) : Type :=
| Ok (a : A)
| Err (e : E).
Arguments Ok {E A} a.
Arguments Err {E A} e.

Definition IsOk {E A} (r : Result E A) : Prop :=
  match r with Ok _ => True | Err _ => False end.

(** The value of an initialiser that is known not to fail. *)
Definition value_of {E A} (r : Result E A) : IsOk r -> A :=
  match r return IsOk r -> A with
  | Ok a => fun _ => a
  | Err _ => fun H => match H with end
  end.

(** ** Machine integers

    Fixed-width unsigned integers are integers in [Z] reduced modulo their
    width. *)

Module U32.
Definition modulus : Z := 2 ^ 32.
Definition wrap (x : Z) : Z := x mod modulus.
Definition add (x y : Z) : Z := wrap (x + y).
Definition not (x : Z) : Z := modulus - 1 - x.
Definition shl (x n : Z) : Z := wrap (Z.shiftl x n).
Definition shr (x n : Z) : Z := Z.shiftr x n.
(** [bits.RotateLeft32 x (-n)], a rotation to the right by [n] bits. *)
Definition rotr (x n : Z) : Z := Z.lor (shr x n) (shl x (32 - n)).
End U32.

(** A byte is an integer in [0, 256). *)
Definition byte := Z.

(** Little-endian and big-endian encodings of a [n]-byte unsigned integer. *)
Fixpoint le_bytes (n : nat) (x : Z) : list byte :=
  match n with
  | O => []
  | S n' => (x mod 256) :: le_bytes n' (x / 256)
  end.

Definition be_bytes (n : nat) (x : Z) : list byte := rev (le_bytes n x).

Definition be_word (bs : list byte) : Z :=
  fold_left (fun acc b => acc * 256 + b) bs 0.

(** ** crypto/sha256 (FIPS 180-4)

    The hash function of the Go standard library that chainhash calls. The
    layout follows the library's generic block function: a 64-word message
    schedule, then 64 rounds over the eight working variables. *)

Module sha256.
Import U32.

Definition chunk : nat := 64.

Definition init : list Z :=
  [ 0x6A09E667; 0xBB67AE85; 0x3C6EF372; 0xA54FF53A;
    0x510E527F; 0x9B05688C; 0x1F83D9AB; 0x5BE0CD19 ].

Definition _K : list Z :=
  [ 0x428A2F98; 0x71374491; 0xB5C0FBCF; 0xE9B5DBA5;
    0x3956C25B; 0x59F111F1; 0x923F82A4; 0xAB1C5ED5;
    0xD807AA98; 0x12835B01; 0x243185BE; 0x550C7DC3;
    0x72BE5D74; 0x80DEB1FE; 0x9BDC06A7; 0xC19BF174;
    0xE49B69C1; 0xEFBE4786; 0x0FC19DC6; 0x240CA1CC;
    0x2DE92C6F; 0x4A7484AA; 0x5CB0A9DC; 0x76F988DA;
    0x983E5152; 0xA831C66D; 0xB00327C8; 0xBF597FC7;
    0xC6E00BF3; 0xD5A79147; 0x06CA6351; 0x14292967;
    0x27B70A85; 0x2E1B2138; 0x4D2C6DFC; 0x53380D13;
    0x650A7354; 0x766A0ABB; 0x81C2C92E; 0x92722C85;
    0xA2BFE8A1; 0xA81A664B; 0xC24B8B70; 0xC76C51A3;
    0xD192E819; 0xD6990624; 0xF40E3585; 0x106AA070;
    0x19A4C116; 0x1E376C08; 0x2748774C; 0x34B0BCB5;
    0x391C0CB3; 0x4ED8AA4A; 0x5B9CCA4F; 0x682E6FF3;
    0x748F82EE; 0x78A5636F; 0x84C87814; 0x8CC70208;
    0x90BEFFFA; 0xA4506CEB; 0xBEF9A3F7; 0xC67178F2 ].

Definition word_at (w : list Z) (i : nat) : Z := nth i w 0.

(** [w[i] = uint32(p[j])<<24 | ... | uint32(p[j+3])] for [i < 16]. *)
Fixpoint load_words (n : nat) (p : list byte) : list Z :=
  match n with
  | O => []
  | S n' => be_word (firstn 4 p) :: load_words n' (skipn 4 p)
  end.

(** One step of the schedule loop: appends [w[i]] for [i = length w]. *)
Definition extend_step (w : list Z) : list Z :=
  let i := length w in
  let v1 := word_at w (i - 2) in
  let t1 := Z.lxor (Z.lxor (rotr v1 17) (rotr v1 19)) (shr v1 10) in
  let v2 := word_at w (i - 15) in
  let t2 := Z.lxor (Z.lxor (rotr v2 7) (rotr v2 18)) (shr v2 3) in
  w ++ [add (add (add t1 (word_at w (i - 7))) t2) (word_at w (i - 16))].

Definition schedule (p : list byte) : list Z :=
  Nat.iter 48 extend_step (load_words 16 p).

Record vars := Vars { va : Z; vb : Z; vc : Z; vd : Z;
                      ve : Z; vf : Z; vg : Z; vh : Z }.

Definition round (s : vars) (k w : Z) : vars :=
  let '(Vars a b c d e f g h) := s in
  let t1 := add (add (add (add h
              (Z.lxor (Z.lxor (rotr e 6) (rotr e 11)) (rotr e 25)))
              (Z.lxor (Z.land e f) (Z.land (not e) g))) k) w in
  let t2 := add (Z.lxor (Z.lxor (rotr a 2) (rotr a 13)) (rotr a 22))
                (Z.lxor (Z.lxor (Z.land a b) (Z.land a c)) (Z.land b c)) in
  Vars (add t1 t2) a b c (add d t1) e f g.

Fixpoint rounds (s : vars) (ks ws : list Z) : vars :=
  match ks, ws with
  | k :: ks', w :: ws' => rounds (round s k w) ks' ws'
  | _, _ => s
  end.

Definition of_list (h : list Z) : vars :=
  Vars (word_at h 0) (word_at h 1) (word_at h 2) (word_at h 3)
       (word_at h 4) (word_at h 5) (word_at h 6) (word_at h 7).

(** The body of [blockGeneric] for one 64-byte chunk. *)
Definition block1 (h : list Z) (p : list byte) : list Z :=
  let '(Vars a b c d e f g h') := rounds (of_list h) _K (schedule p) in
  [ add (word_at h 0) a; add (word_at h 1) b;
    add (word_at h 2) c; add (word_at h 3) d;
    add (word_at h 4) e; add (word_at h 5) f;
    add (word_at h 6) g; add (word_at h 7) h' ].

(** [for len(p) >= chunk { ...; p = p[chunk:] }], with the number of
    chunks as the recursion measure. *)
Fixpoint block (n : nat) (h : list Z) (p : list byte) : list Z :=
  match n with
  | O => h
  | S n' => block n' (block1 h (firstn chunk p)) (skipn chunk p)
  end.

(** Padding of [checkSum]: a 0x80 byte, zeroes up to 56 modulo 64, then
    the length in bits as a big-endian 64-bit integer. *)
Definition padding (len : nat) : list byte :=
  let r := (len mod 64)%nat in
  let zeros := if (r <? 56)%nat then (55 - r)%nat else (119 - r)%nat in
  0x80 :: repeat 0 zeros ++ be_bytes 8 (Z.of_nat len * 8).

Definition Sum256 (data : list byte) : list byte :=
  let p := data ++ padding (length data) in
  concat (map (be_bytes 4) (block (length p / 64) init p)).
End sha256.

Definition bytes_of_string (s : string) : list byte :=
  map (fun c => Z.of_nat (nat_of_ascii c)) (list_ascii_of_string s).

Definition nibble_hex (n : Z) : ascii :=
  if n <? 10 then ascii_of_nat (Z.to_nat (48 + n))
  else ascii_of_nat (Z.to_nat (87 + n)).

(** [hex.EncodeToString]. *)
Fixpoint hex_encode (bs : list byte) : string :=
  match bs with
  | [] => EmptyString
  | b :: bs' => String (nibble_hex (b / 16))
                  (String (nibble_hex (b mod 16)) (hex_encode bs'))
  end.

(** ** Package time *)

Module time.
(** A [Duration] is a signed 64-bit count of nanoseconds. *)
Definition Duration := Z.
Definition Nanosecond : Duration := 1.
Definition Microsecond : Duration := 1000 * Nanosecond.
Definition Millisecond : Duration := 1000 * Microsecond.
Definition Second : Duration := 1000 * Millisecond.
Definition Minute : Duration := 60 * Second.
Definition Hour : Duration := 60 * Minute.

(** A [Time] as seconds and nanoseconds since the Unix epoch. *)
Record Time := { sec : Z; nsec : Z }.

(** [time.Unix(sec, nsec)]: [nsec] outside [0, 1e9) is carried over. *)
Definition Unix (s n : Z) : Time :=
  {| sec := s + n / 1000000000; nsec := n mod 1000000000 |}.

(** The method [t.Unix()]. *)
Definition to_unix (t : Time) : Z := sec t.

(** [t.Sub(u)], inside the range of a [Duration]. *)
Definition Sub (t u : Time) : Duration :=
  (sec t - sec u) * Second + (nsec t - nsec u).
End time.

(** ** Package chainhash *)

Module chainhash.
Definition HashSize : nat := 32.
Definition MaxHashStringSize : nat := (HashSize * 2)%nat.

(** [type Hash [HashSize]byte] *)
Definition Hash := list byte.

(** [chainhash.Hash{}], all zeroes. *)
Definition zero : Hash := repeat 0 HashSize.

Inductive HashError :=
| ErrHashStrSize
| InvalidByteError (c : ascii).

(** [hex.fromHexChar] *)
Definition fromHexChar (c : ascii) : option Z :=
  let n := Z.of_nat (nat_of_ascii c) in
  if (48 <=? n) && (n <=? 57) then Some (n - 48)
  else if (97 <=? n) && (n <=? 102) then Some (n - 97 + 10)
  else if (65 <=? n) && (n <=? 70) then Some (n - 65 + 10)
  else None.

(** [hex.Decode] on a source of even length. *)
Fixpoint hex_decode (src : list ascii) : Result HashError (list byte) :=
  match src with
  | hi :: lo :: rest =>
      match fromHexChar hi, fromHexChar lo with
      | Some a, Some b =>
          match hex_decode rest with
          | Ok bs => Ok ((a * 16 + b) :: bs)
          | Err e => Err e
          end
      | None, _ => Err (InvalidByteError hi)
      | _, None => Err (InvalidByteError lo)
      end
  | _ => Ok []
  end.

(** Modelled from the spec: [chainhash.Decode] / [NewHashFromStr], which
    src/ calls but does not contain. The string is the big-endian display
    form of the hash (spec, section 6: "checkpoint hash: fixed-size content
    hash, big-endian display convention"); the stored bytes are in the
    reverse order, short strings being padded with leading zeroes. *)
Definition NewHashFromStr (s : string) : Result HashError Hash :=
  let src := list_ascii_of_string s in
  if (MaxHashStringSize <? length src)%nat then Err ErrHashStrSize
  else
    let srcBytes := if Nat.even (length src) then src else "0"%char :: src in
    match hex_decode srcBytes with
    | Ok bs => Ok (rev (repeat 0 (HashSize - length bs) ++ bs))
    | Err e => Err e
    end.

(** [Hash.String]: the hexadecimal string of the byte-reversed hash. *)
Definition String (h : Hash) : string := hex_encode (rev h).

(** [DoubleHashH]: sha256(sha256(b)). *)
Definition DoubleHashH (b : list byte) : Hash :=
  sha256.Sum256 (sha256.Sum256 b).
End chainhash.

(** ** Package wire *)

Module wire.
Record OutPoint := { Hash : chainhash.Hash; Index : Z }.

Record TxIn := {
  PreviousOutPoint : OutPoint;
  SignatureScript : list byte;
  Witness : list (list byte);
  Sequence : Z }.

Record TxOut := { Value : Z; PkScript : list byte }.

(** The fields [Version], [TxIn] and [TxOut] of [MsgTx], renamed apart from
    the header's [Version] and from the types of the same names. *)
Record MsgTx := {
  TxVersion : Z;
  TxIns : list TxIn;
  TxOuts : list TxOut;
  LockTime : Z }.

Record BlockHeader := {
  Version : Z;
  PrevBlock : chainhash.Hash;
  MerkleRoot : chainhash.Hash;
  Timestamp : time.Time;
  Bits : Z;
  Nonce : Z }.

(** Addresses of the package-level transactions that blocks point to
    ([[]*wire.MsgTx{&genesisCoinbaseTx}]). *)
Inductive TxPtr := addr_genesisCoinbaseTx.

Record MsgBlock := {
  Header : BlockHeader;
  Transactions : list TxPtr }.

(** Modelled from the spec: [writeBlockHeader], the 80-byte header
    serialization that src/ relies on through [BlockHash]: the fields in
    declaration order, integers little-endian on four bytes, the timestamp
    as its Unix seconds. *)
Definition writeBlockHeader (bh : BlockHeader) : list byte :=
  le_bytes 4 (U32.wrap (Version bh))
  ++ PrevBlock bh
  ++ MerkleRoot bh
  ++ le_bytes 4 (U32.wrap (time.to_unix (Timestamp bh)))
  ++ le_bytes 4 (Bits bh)
  ++ le_bytes 4 (Nonce bh).

(** Modelled from the spec: [BlockHeader.BlockHash] and
    [MsgBlock.BlockHash], called by src/ but defined outside it. The spec
    leaves the hash function itself open (section 1); it is the one of this
    block-header format, SHA-256 applied twice to the serialized header. *)
Definition HeaderBlockHash (bh : BlockHeader) : chainhash.Hash :=
  chainhash.DoubleHashH (writeBlockHeader bh).

Definition BlockHash (msg : MsgBlock) : chainhash.Hash :=
  HeaderBlockHash (Header msg).
End wire.

(** ** Package chaincfg: the declarations that junkcoinparams.go uses *)

Inductive Panic := panic (e : chainhash.HashError).

Record DNSSeed := { Host : string; HasFiltering : bool }.

Record Checkpoint := { Height : Z; CheckpointHash : chainhash.Hash }.

(** Addresses of the package-level variables that a [Params] points to
    ([&junkcoinGenesisBlock], [&junkcoinGenesisHash], ...). *)
Inductive BlockPtr := addr_junkcoinGenesisBlock | addr_junkcoinTestNetGenesisBlock.
Inductive HashPtr := addr_junkcoinGenesisHash | addr_junkcoinTestNetGenesisHash.

(** The fields of [Params] that the two literals set. *)
Record Params := {
  Name : string;
  Net : Z;
  DefaultPort : string;
  DNSSeeds : list DNSSeed;
  GenesisBlock : BlockPtr;
  GenesisHash : HashPtr;
  PowLimit : Z;
  PowLimitBits : Z;
  BIP0034Height : Z;
  BIP0065Height : Z;
  BIP0066Height : Z;
  CoinbaseMaturity : Z;
  SubsidyReductionInterval : Z;
  TargetTimespan : time.Duration;
  TargetTimePerBlock : time.Duration;
  RetargetAdjustmentFactor : Z;
  ReduceMinDifficulty : bool;
  MinDiffReductionTime : time.Duration;
  GenerateSupported : bool;
  Checkpoints : list Checkpoint;
  RuleChangeActivationThreshold : Z;
  MinerConfirmationWindow : Z;
  RelayNonStdTxs : bool;
  Bech32HRPSegwit : string;
  PubKeyHashAddrID : byte;
  ScriptHashAddrID : byte;
  PrivateKeyID : byte;
  WitnessPubKeyHashAddrID : byte;
  WitnessScriptHashAddrID : byte;
  HDPrivateKeyID : list byte;
  HDPublicKeyID : list byte;
  HDCoinType : Z }.

(** Modelled from the spec: [bigOne], a package-level constant declared
    outside src/; the comments on the two limits ("It is the value
    2^224 - 1") fix it to 1. *)
Definition bigOne : Z := 1.

(** [new(big.Int).Lsh(x, n)] and [new(big.Int).Sub(x, y)]. *)
Definition big_Lsh (x : Z) (n : Z) : Z := Z.shiftl x n.
Definition big_Sub (x y : Z) : Z := x - y.

(** [mustParseHash]: parses a big-endian hex string, panicking on error. *)
Definition mustParseHash (s : string) : Result Panic chainhash.Hash :=
  match chainhash.NewHashFromStr s with
  | Ok h => Ok h
  | Err e => Err (panic e)
  end.

(** Modelled from the spec: [newHashFromStr], the helper of the checkpoint
    tables, declared outside src/; like [mustParseHash] it is only applied
    to hard-coded strings. *)
Definition newHashFromStr (s : string) : Result Panic chainhash.Hash :=
  mustParseHash s.

(** A table entry [{h, newHashFromStr("...")}] whose string parses. *)
Definition checkpoint (h : Z) (s : string) (ok : IsOk (newHashFromStr s))
  : Checkpoint :=
  {| Height := h; CheckpointHash := value_of (newHashFromStr s) ok |}.

(** *** The variables of junkcoinparams.go *)

Definition junkcoinMainPowLimit : Z := big_Sub (big_Lsh bigOne 224) bigOne.

Definition junkcoinTestNetPowLimit : Z := big_Sub (big_Lsh bigOne 224) bigOne.

Definition junkcoinGenesisMerkleRoot : chainhash.Hash :=
  value_of (mustParseHash
    "4a5e1e4baab89f3a32518a88c31bc87f618f76673e2cc77ab2127b7afdeda33b") I.

Definition junkcoinTestNetGenesisMerkleRoot : chainhash.Hash :=
  value_of (mustParseHash
    "4a5e1e4baab89f3a32518a88c31bc87f618f76673e2cc77ab2127b7afdeda33b") I.

Definition genesisCoinbaseTx : wire.MsgTx :=
  {| wire.TxVersion := 1;
     wire.TxIns := [
       {| wire.PreviousOutPoint :=
            {| wire.Hash := chainhash.zero; wire.Index := 0xffffffff |};
          wire.SignatureScript := [
          0x04; 0xff; 0xff; 0x00; 0x1d; 0x01; 0x04; 0x45;
          0x54; 0x68; 0x65; 0x20; 0x54; 0x69; 0x6d; 0x65;
          0x73; 0x20; 0x30; 0x33; 0x2f; 0x4a; 0x61; 0x6e;
          0x2f; 0x32; 0x30; 0x30; 0x39; 0x20; 0x43; 0x68;
          0x61; 0x6e; 0x63; 0x65; 0x6c; 0x6c; 0x6f; 0x72;
          0x20; 0x6f; 0x6e; 0x20; 0x62; 0x72; 0x69; 0x6e;
          0x6b; 0x20; 0x6f; 0x66; 0x20; 0x73; 0x65; 0x63;
          0x6f; 0x6e; 0x64; 0x20; 0x62; 0x61; 0x69; 0x6c;
          0x6f; 0x75; 0x74; 0x20; 0x66; 0x6f; 0x72; 0x20;
          0x62; 0x61; 0x6e; 0x6b; 0x73 ];
          wire.Witness := [];
          wire.Sequence := 0xffffffff |} ];
     wire.TxOuts := [
       {| wire.Value := 0x12a05f200;
          wire.PkScript := [
          0x41; 0x04; 0x67; 0x8a; 0xfd; 0xb0; 0xfe; 0x55;
          0x48; 0x27; 0x19; 0x67; 0xf1; 0xa6; 0x71; 0x30;
          0xb7; 0x10; 0x5c; 0xd6; 0xa8; 0x28; 0xe0; 0x39;
          0x09; 0xa6; 0x79; 0x62; 0xe0; 0xea; 0x1f; 0x61;
          0xde; 0xb6; 0x49; 0xf6; 0xbc; 0x3f; 0x4c; 0xef;
          0x38; 0xc4; 0xf3; 0x55; 0x04; 0xe5; 0x1e; 0xc1;
          0x12; 0xde; 0x5c; 0x38; 0x4d; 0xf7; 0xba; 0x0b;
          0x8d; 0x57; 0x8a; 0x4c; 0x70; 0x2b; 0x6b; 0xf1;
          0x1d; 0x5f; 0xac ] |} ];
     wire.LockTime := 0 |}.

Definition junkcoinGenesisBlock : wire.MsgBlock :=
  {| wire.Header :=
       {| wire.Version := 1;
          wire.PrevBlock := chainhash.zero;
          wire.MerkleRoot := junkcoinGenesisMerkleRoot;
          wire.Timestamp := time.Unix 1231006505 0;
          wire.Bits := 0x1d00ffff;
          wire.Nonce := 2083236893 |};
     wire.Transactions := [wire.addr_genesisCoinbaseTx] |}.

Definition junkcoinTestNetGenesisBlock : wire.MsgBlock :=
  {| wire.Header :=
       {| wire.Version := 1;
          wire.PrevBlock := chainhash.zero;
          wire.MerkleRoot := junkcoinTestNetGenesisMerkleRoot;
          wire.Timestamp := time.Unix 1296688602 0;
          wire.Bits := 0x1d00ffff;
          wire.Nonce := 414098458 |};
     wire.Transactions := [wire.addr_genesisCoinbaseTx] |}.

Definition junkcoinGenesisHash : chainhash.Hash :=
  wire.BlockHash junkcoinGenesisBlock.

Definition junkcoinTestNetGenesisHash : chainhash.Hash :=
  wire.BlockHash junkcoinTestNetGenesisBlock.

(** Dereferencing the pointers held by blocks and parameter sets. *)
Definition load_tx (p : wire.TxPtr) : wire.MsgTx :=
  match p with wire.addr_genesisCoinbaseTx => genesisCoinbaseTx end.

Definition load_block (p : BlockPtr) : wire.MsgBlock :=
  match p with
  | addr_junkcoinGenesisBlock => junkcoinGenesisBlock
  | addr_junkcoinTestNetGenesisBlock => junkcoinTestNetGenesisBlock
  end.

Definition load_hash (p : HashPtr) : chainhash.Hash :=
  match p with
  | addr_junkcoinGenesisHash => junkcoinGenesisHash
  | addr_junkcoinTestNetGenesisHash => junkcoinTestNetGenesisHash
  end.

Definition JunkcoinMainNetParams : Params :=
  {| Name := "junkcoin-mainnet";
     Net := 0x6a756e6b;
     DefaultPort := "9771";
     DNSSeeds := [
       {| Host := "mainnet.junk-coin.com"; HasFiltering := true |};
       {| Host := "junk-seed.s3na.xyz"; HasFiltering := true |};
       {| Host := "jkc-seed.junkiewally.xyz"; HasFiltering := true |} ];
     GenesisBlock := addr_junkcoinGenesisBlock;
     GenesisHash := addr_junkcoinGenesisHash;
     PowLimit := junkcoinMainPowLimit;
     PowLimitBits := 0x1e0ffff0;
     BIP0034Height := 0;
     BIP0065Height := 0;
     BIP0066Height := 0;
     CoinbaseMaturity := 70;
     SubsidyReductionInterval := 518400;
     TargetTimespan := time.Hour * 24;
     TargetTimePerBlock := time.Minute * 1;
     RetargetAdjustmentFactor := 4;
     ReduceMinDifficulty := false;
     MinDiffReductionTime := 0;
     GenerateSupported := false;
     Checkpoints := [
      checkpoint 0
        "a2effa738145e377e08a61d76179c21703e13e48910b30a2a87f0dfe794b64c6" I;
      checkpoint 1
        "ca55073a54775a1ef78294f53f38a3e02d0654d7417f3cbbe4d28d17d50e07d0" I;
      checkpoint 53
        "b623a39a5a0534990a59916d5803fa2bd6a6d52d8e594546936a42a2cc9b0441" I;
      checkpoint 117
        "6cab49bd69fcce2bb48793cc064bb49e75f068e7029b5173db83654fbcb5953d" I;
      checkpoint 200
        "45257b0f2ee6d5c55ac16a76817d7151b776d6452ae6f21426eaa42345b831f8" I;
      checkpoint 6452
        "506562c2172d9f10e86d2b467ed3bb7b9eba40148d18d1e660c1ff692604f3fc" I;
      checkpoint 10978
        "1c9f7f7a4702f8225df430b259ac58c387de99439be8a8789841a1c011ead7fc" I;
      checkpoint 17954
        "6036051659e92a17cb7488040e05a94483b7a7f88b184156c136d51ff0390a7d" I;
      checkpoint 23978
        "7924154aa896363ec9be3ca5f939602f72cf4a5396e6e1cd9139335dd1819487" I;
      checkpoint 33212
        "448040ac454da8654d9c58ad79386aa1a88fd113be0fcc5ca39ecd3eae8c8618" I;
      checkpoint 45527
        "f2420d964001d4d2c8bc0d9283f3f684d4d91a509a50985888458a68e08e1c82" I;
      checkpoint 57484
        "c3e95c6fb35f4b39006c89538415b4f50a253a3ac1cad0e583fb287f6bd91be1" I;
      checkpoint 69240
        "c34f5d113fe92f3206ef8855caf51cd6252286e3381b253bbc1237211198c22b" I;
      checkpoint 73892
        "d05129c2d9f3e99565bf84fbceabbc61728e4d644173e194823b639f7c406b04" I;
      checkpoint 168312
        "deea2bcecb1146ae9cd74d67b29b4d0161e9bb63beb9022ca10f3625dda6c0e6" I ];
     RuleChangeActivationThreshold := 9576;
     MinerConfirmationWindow := 10080;
     RelayNonStdTxs := false;
     Bech32HRPSegwit := "jc";
     PubKeyHashAddrID := 0x10;
     ScriptHashAddrID := 0x05;
     PrivateKeyID := 0x90;
     WitnessPubKeyHashAddrID := 0x06;
     WitnessScriptHashAddrID := 0x0A;
     HDPrivateKeyID := [0x04; 0x88; 0xad; 0xe4];
     HDPublicKeyID := [0x04; 0x88; 0xb2; 0x1e];
     HDCoinType := 2013 |}.

Definition JunkcoinTestNetParams : Params :=
  {| Name := "junkcoin-testnet";
     Net := 0x6a756e6b + 1;
     DefaultPort := "19771";
     DNSSeeds := [
       {| Host := "testnet.junk-coin.com"; HasFiltering := true |};
       {| Host := "junk-testnet.s3na.xyz"; HasFiltering := true |} ];
     GenesisBlock := addr_junkcoinTestNetGenesisBlock;
     GenesisHash := addr_junkcoinTestNetGenesisHash;
     PowLimit := junkcoinTestNetPowLimit;
     PowLimitBits := 0x1e0ffff0;
     BIP0034Height := 0;
     BIP0065Height := 0;
     BIP0066Height := 0;
     CoinbaseMaturity := 30;
     SubsidyReductionInterval := 518400;
     TargetTimespan := time.Hour * 4;
     TargetTimePerBlock := time.Minute * 1;
     RetargetAdjustmentFactor := 4;
     ReduceMinDifficulty := true;
     MinDiffReductionTime := time.Minute * 2;
     GenerateSupported := true;
     Checkpoints := [
      checkpoint 0
        "a2effa738145e377e08a61d76179c21703e13e48910b30a2a87f0dfe794b64c6" I ];
     RuleChangeActivationThreshold := 1512;
     MinerConfirmationWindow := 2016;
     RelayNonStdTxs := true;
     Bech32HRPSegwit := "tj";
     PubKeyHashAddrID := 0x6f;
     ScriptHashAddrID := 0xc4;
     PrivateKeyID := 0xef;
     WitnessPubKeyHashAddrID := 0x03;
     WitnessScriptHashAddrID := 0x28;
     HDPrivateKeyID := [0x04; 0x35; 0x83; 0x94];
     HDPublicKeyID := [0x04; 0x35; 0x87; 0xcf];
     HDCoinType := 11337 |}.


(** ** Registry

    Modelled from the spec: [Register] and the lookups are declared outside
    src/ (only the two calls in [init] are there). Section 4.2: the registry
    holds a map from network magic and a map from name to parameter sets;
    [register] fails with [DuplicateNetwork] if the magic or the name is
    already present and otherwise updates both maps together. *)

Inductive RegistryError := DuplicateNetwork.

Record Registry := {
  by_magic : gmap Z Params;
  by_name : gmap string Params }.

(** The registry at process start. *)
Definition empty_registry : Registry :=
  {| by_magic := ∅; by_name := ∅ |}.

Definition lookup_by_magic (r : Registry) (magic : Z) : option Params :=
  by_magic r !! magic.

Definition lookup_by_name (r : Registry) (name : string) : option Params :=
  by_name r !! name.

Definition is_present {A} (o : option A) : bool :=
  match o with Some _ => true | None => false end.

(** State-passing: the outcome of the call and the registry after it. *)
Definition Register (params : Params) (r : Registry)
  : Result RegistryError unit * Registry :=
  if is_present (lookup_by_magic r (Net params))
     || is_present (lookup_by_name r (Name params))
  then (Err DuplicateNetwork, r)
  else (Ok tt, {| by_magic := <[Net params := params]> (by_magic r);
                  by_name := <[Name params := params]> (by_name r) |}).

(** [func init()]: registers the two networks, panicking on an error. *)
Definition init (r : Registry) : Result RegistryError Registry :=
  match Register JunkcoinMainNetParams r with
  | (Err e, _) => Err e
  | (Ok _, r1) =>
      match Register JunkcoinTestNetParams r1 with
      | (Err e, _) => Err e
      | (Ok _, r2) => Ok r2
      end
  end.

(** The registry once [init] has run on the empty one. *)
Definition registry_after_init : Registry :=
  snd (Register JunkcoinTestNetParams
         (snd (Register JunkcoinMainNetParams empty_registry))).

(** The registry in which each entry sits under its own magic and its own
    name, and is reachable through both maps. *)
Definition consistent (r : Registry) : Prop :=
  (forall m p, by_magic r !! m = Some p ->
     Net p = m /\ by_name r !! Name p = Some p) /\
  (forall n p, by_name r !! n = Some p ->
     Name p = n /\ by_magic r !! Net p = Some p).

(** Registered sets, as seen through the magic-keyed map. *)
Definition registered (r : Registry) (p : Params) : Prop :=
  exists m, by_magic r !! m = Some p.

(** ** CheckpointPolicy

    Modelled from the spec: the policy is not under src/ (only the
    checkpoint tables are). Section 4.5: if a checkpoint exists at [height]
    the supplied hash must equal it exactly, otherwise the check passes. *)

Inductive CheckpointError := CheckpointMismatch.

Definition hash_eqb (a b : chainhash.Hash) : bool :=
  bool_decide (a = b).

Definition checkpoint_at (params : Params) (height : Z) : option Checkpoint :=
  find (fun c => Height c =? height) (Checkpoints params).

Definition verify (params : Params) (height : Z) (hash : chainhash.Hash)
  : Result CheckpointError unit :=
  match checkpoint_at params height with
  | Some c => if hash_eqb hash (CheckpointHash c) then Ok tt
              else Err CheckpointMismatch
  | None => Ok tt
  end.

Definition last_checkpoint_height (params : Params) : option Z :=
  match Checkpoints params with
  | [] => None
  | c :: cs => Some (Height (List.last cs c))
  end.

(** Strictly increasing heights, as a check over neighbouring entries. *)
Fixpoint strictly_increasing (hs : list Z) : bool :=
  match hs with
  | a :: (b :: _) as tl => (a <? b) && strictly_increasing tl
  | _ => true
  end.

Definition checkpoint_heights (params : Params) : list Z :=
  map Height (Checkpoints params).

(** ** Compact difficulty

    Modelled from the spec: the codec is not under src/. Section 6: the
    standard 4-byte exponent + mantissa encoding of this block-header
    format: the high byte is the exponent in bytes, bit 23 the sign, the low
    23 bits the mantissa, and the value is mantissa * 256^(exponent - 3). *)

Definition CompactToBig (compact : Z) : Z :=
  let mantissa := Z.land compact 0x007fffff in
  let isNegative := negb (Z.land compact 0x00800000 =? 0) in
  let exponent := Z.shiftr compact 24 in
  let bn :=
    if exponent <=? 3 then Z.shiftr mantissa (8 * (3 - exponent))
    else Z.shiftl mantissa (8 * (exponent - 3)) in
  if isNegative then - bn else bn.

(** The number of bytes of the magnitude of [n]. *)
Definition byte_length (n : Z) : Z :=
  if n =? 0 then 0 else Z.log2 (Z.abs n) / 8 + 1.

Definition BigToCompact (n : Z) : Z :=
  if n =? 0 then 0
  else
    let exponent := byte_length n in
    let mantissa :=
      if exponent <=? 3
      then U32.shl (U32.wrap (Z.abs n)) (8 * (3 - exponent))
      else U32.wrap (Z.shiftr (Z.abs n) (8 * (exponent - 3))) in
    let '(mantissa, exponent) :=
      if negb (Z.land mantissa 0x00800000 =? 0)
      then (Z.shiftr mantissa 8, exponent + 1)
      else (mantissa, exponent) in
    let compact := Z.lor (U32.shl exponent 24) mantissa in
    if n <? 0 then Z.lor compact 0x00800000 else compact.

(** ** DifficultyPolicy

    Modelled from the spec: the retarget code is not under src/ (only the
    parameters it reads are). Section 4.4. *)

Definition blocks_per_retarget (params : Params) : Z :=
  Z.quot (TargetTimespan params) (TargetTimePerBlock params).

Definition min_retarget_timespan (params : Params) : time.Duration :=
  Z.quot (TargetTimespan params) (RetargetAdjustmentFactor params).

Definition max_retarget_timespan (params : Params) : time.Duration :=
  TargetTimespan params * RetargetAdjustmentFactor params.

(** The clamp to [target_timespan / factor, target_timespan * factor]. *)
Definition clamp_timespan (params : Params) (actual : time.Duration)
  : time.Duration :=
  if actual <? min_retarget_timespan params then min_retarget_timespan params
  else if max_retarget_timespan params <? actual
       then max_retarget_timespan params
       else actual.

(** new target = old_target * timespan / target_timespan, clamped to
    pow_limit. *)
Definition scale_target (params : Params) (old_target : Z)
    (timespan : time.Duration) : Z :=
  let new_target := old_target * timespan / TargetTimespan params in
  if PowLimit params <? new_target then PowLimit params else new_target.

Definition retarget (params : Params) (old_bits : Z)
    (actual_timespan : time.Duration) : Z :=
  BigToCompact
    (scale_target params (CompactToBig old_bits)
       (clamp_timespan params actual_timespan)).

(** [recent_headers] lists the headers before the current block, the
    previous block first; [height] and [now] are the height and timestamp of
    the current block. The result is [None] when a header the rule reads is
    not among them. *)
Definition next_required_difficulty (params : Params) (height : Z)
    (now : time.Time) (recent_headers : list wire.BlockHeader) : option Z :=
  match recent_headers with
  | [] => None
  | prev :: _ =>
      if negb (Z.rem height (blocks_per_retarget params) =? 0) then
        if ReduceMinDifficulty params
           && (MinDiffReductionTime params
               <? time.Sub now (wire.Timestamp prev))
        then Some (PowLimitBits params)
        else Some (wire.Bits prev)
      else
        match nth_error recent_headers
                (Z.to_nat (blocks_per_retarget params - 1)) with
        | None => None
        | Some first =>
            Some (retarget params (wire.Bits prev)
                    (time.Sub (wire.Timestamp prev) (wire.Timestamp first)))
        end
  end.

(** ** Transaction hashing

    Modelled from the spec: [MsgTx.TxHash] and the transaction serialization
    behind it are not under src/. Section 4.3: the merkle root of a genesis
    header is the hash of its single transaction; the serialization is the
    one of this transaction format without witness data: version, inputs
    (previous output, script, sequence), outputs (value, script), lock time,
    with counts and script lengths as variable-length integers. *)

Module txwire.
Definition WriteVarInt (n : Z) : list byte :=
  if n <? 0xfd then [n]
  else if n <=? 0xffff then 0xfd :: le_bytes 2 n
  else if n <=? 0xffffffff then 0xfe :: le_bytes 4 n
  else 0xff :: le_bytes 8 n.

Definition WriteVarBytes (bs : list byte) : list byte :=
  WriteVarInt (Z.of_nat (length bs)) ++ bs.

Definition writeOutPoint (op : wire.OutPoint) : list byte :=
  wire.Hash op ++ le_bytes 4 (wire.Index op).

Definition writeTxIn (ti : wire.TxIn) : list byte :=
  writeOutPoint (wire.PreviousOutPoint ti)
  ++ WriteVarBytes (wire.SignatureScript ti)
  ++ le_bytes 4 (wire.Sequence ti).

Definition writeTxOut (to : wire.TxOut) : list byte :=
  le_bytes 8 (wire.Value to mod 2 ^ 64) ++ WriteVarBytes (wire.PkScript to).

Definition SerializeNoWitness (msg : wire.MsgTx) : list byte :=
  le_bytes 4 (U32.wrap (wire.TxVersion msg))
  ++ WriteVarInt (Z.of_nat (length (wire.TxIns msg)))
  ++ concat (map writeTxIn (wire.TxIns msg))
  ++ WriteVarInt (Z.of_nat (length (wire.TxOuts msg)))
  ++ concat (map writeTxOut (wire.TxOuts msg))
  ++ le_bytes 4 (wire.LockTime msg).

Definition TxHash (msg : wire.MsgTx) : chainhash.Hash :=
  chainhash.DoubleHashH (SerializeNoWitness msg).
End txwire.

(** ** Predicates on hash strings and bytes *)

Definition is_hex (c : ascii) : bool := is_present (chainhash.fromHexChar c).

(** A digit or a letter [a]..[f]: the characters that [Hash.String] emits. *)
Definition is_lower_hex (c : ascii) : bool :=
  match chainhash.fromHexChar c with
  | Some n => bool_decide (nibble_hex n = c)
  | None => false
  end.

Definition is_byte (b : Z) : Prop := 0 <= b < 256.

(** A string extended to the full 64 characters with leading zeroes. *)
Definition zero_pad (s : string) : string :=
  string_of_list_ascii
    (repeat "0"%char (chainhash.MaxHashStringSize - String.length s)
     ++ list_ascii_of_string s).

(** The version bytes of the address encodings of a parameter set. *)
Definition address_ids (params : Params) : list byte :=
  [ PubKeyHashAddrID params; ScriptHashAddrID params; PrivateKeyID params;
    WitnessPubKeyHashAddrID params; WitnessScriptHashAddrID params ].

(** ** Sample inputs *)

(** A third parameter set that reuses the mainnet magic under a new name. *)
Definition clashing_params : Params :=
  {| Name := "junkcoin-third";
     Net := 0x6a756e6b;
     DefaultPort := DefaultPort JunkcoinMainNetParams;
     DNSSeeds := [];
     GenesisBlock := GenesisBlock JunkcoinMainNetParams;
     GenesisHash := GenesisHash JunkcoinMainNetParams;
     PowLimit := PowLimit JunkcoinMainNetParams;
     PowLimitBits := PowLimitBits JunkcoinMainNetParams;
     BIP0034Height := 0;
     BIP0065Height := 0;
     BIP0066Height := 0;
     CoinbaseMaturity := 70;
     SubsidyReductionInterval := 518400;
     TargetTimespan := time.Hour * 24;
     TargetTimePerBlock := time.Minute * 1;
     RetargetAdjustmentFactor := 4;
     ReduceMinDifficulty := false;
     MinDiffReductionTime := 0;
     GenerateSupported := false;
     Checkpoints := [];
     RuleChangeActivationThreshold := 9576;
     MinerConfirmationWindow := 10080;
     RelayNonStdTxs := false;
     Bech32HRPSegwit := "jd";
     PubKeyHashAddrID := 0x10;
     ScriptHashAddrID := 0x05;
     PrivateKeyID := 0x90;
     WitnessPubKeyHashAddrID := 0x06;
     WitnessScriptHashAddrID := 0x0A;
     HDPrivateKeyID := [0x04; 0x88; 0xad; 0xe4];
     HDPublicKeyID := [0x04; 0x88; 0xb2; 0x1e];
     HDCoinType := 2013 |}.

(** A retarget window of 1440 mainnet headers that spans one hour: the
    previous block is stamped 3600 seconds after the first block of the
    window. *)
Definition sample_header (t : Z) : wire.BlockHeader :=
  {| wire.Version := 1;
     wire.PrevBlock := chainhash.zero;
     wire.MerkleRoot := junkcoinGenesisMerkleRoot;
     wire.Timestamp := time.Unix t 0;
     wire.Bits := 0x1c00ffff;
     wire.Nonce := 0 |}.

Definition sample_window : list wire.BlockHeader :=
  sample_header 1700003600
  :: repeat (sample_header 1700001800) 1438
  ++ [sample_header 1700000000].

(** * Properties *)

(** ** The hash function and the hash strings *)

Example sha256_abc :
  hex_encode (sha256.Sum256 (bytes_of_string "abc")) =
  "ba7816bf8f01cfea414140de5dae2223b00361a396177a9cb410ff61f20015ad"%string.
Proof. vm_compute. reflexivity. Qed.

Example sha256_empty :
  hex_encode (sha256.Sum256 []) =
  "e3b0c44298fc1c149afbf4c8996fb92427ae41e4649b934ca495991b7852b855"%string.
Proof. vm_compute. reflexivity. Qed.

Example sha256_two_blocks :
  hex_encode (sha256.Sum256 (bytes_of_string
    "abcdbcdecdefdefgefghfghighijhijkijkljklmklmnlmnomnopnopq")) =
  "248d6a61d20638b8e5c026930c3e6039a33ce45964ff2167f6ecedd419db06c1"%string.
Proof. vm_compute. reflexivity. Qed.

Lemma mustParseHash_String_merkle :
  chainhash.String junkcoinGenesisMerkleRoot =
  "4a5e1e4baab89f3a32518a88c31bc87f618f76673e2cc77ab2127b7afdeda33b".
Proof. vm_compute. reflexivity. Qed.

(** The serialized header has the 80 bytes of the block-header format. *)
Lemma writeBlockHeader_length_genesis :
  length (wire.writeBlockHeader (wire.Header junkcoinGenesisBlock)) = 80%nat
  /\ length (wire.writeBlockHeader
               (wire.Header junkcoinTestNetGenesisBlock)) = 80%nat.
Proof. split; vm_compute; reflexivity. Qed.

(** The two hashes that the initialisers of junkcoinparams.go compute. *)
Lemma junkcoinGenesisHash_value :
  chainhash.String junkcoinGenesisHash =
  "000000000019d6689c085ae165831e934ff763ae46a2a6c172b3f1b60a8ce26f".
Proof. vm_compute. reflexivity. Qed.

Lemma junkcoinTestNetGenesisHash_value :
  chainhash.String junkcoinTestNetGenesisHash =
  "000000000933ea01ad0ee984209779baaec3ced90fa3f408719526f8d77f4943".
Proof. vm_compute. reflexivity. Qed.

(** ** Proof-of-work limits *)

Lemma big_Lsh_pow (x n : Z) : 0 <= n -> big_Lsh x n = x * 2 ^ n.
Proof. intros Hn. unfold big_Lsh. apply Z.shiftl_mul_pow2. exact Hn. Qed.

Lemma junkcoinMainPowLimit_value : junkcoinMainPowLimit = 2 ^ 224 - 1.
Proof.
  unfold junkcoinMainPowLimit, big_Sub, bigOne.
  rewrite big_Lsh_pow by lia. lia.
Qed.

Lemma junkcoinTestNetPowLimit_value : junkcoinTestNetPowLimit = 2 ^ 224 - 1.
Proof.
  unfold junkcoinTestNetPowLimit, big_Sub, bigOne.
  rewrite big_Lsh_pow by lia. lia.
Qed.

(** For a positive compact value with an exponent above 3 the decoding is
    mantissa * 256^(exponent - 3). *)
Lemma CompactToBig_large (compact : Z) :
  Z.land compact 0x00800000 = 0 ->
  3 < Z.shiftr compact 24 ->
  CompactToBig compact =
  Z.land compact 0x007fffff * 256 ^ (Z.shiftr compact 24 - 3).
Proof.
  intros Hsign Hexp. unfold CompactToBig.
  rewrite Hsign. cbn [Z.eqb negb].
  destruct (Z.leb_spec (Z.shiftr compact 24) 3) as [Hle | _]; [lia |].
  rewrite Z.shiftl_mul_pow2 by lia.
  replace 256 with (2 ^ 8) by reflexivity.
  rewrite <- Z.pow_mul_r by lia. reflexivity.
Qed.

(** C10: both limits are the integer 2^224 - 1, and the two networks agree
    on the limit and on its compact form 0x1e0ffff0. *)
Theorem PowLimit_values :
  PowLimit JunkcoinMainNetParams = 2 ^ 224 - 1 /\
  PowLimit JunkcoinTestNetParams = 2 ^ 224 - 1 /\
  PowLimit JunkcoinMainNetParams = PowLimit JunkcoinTestNetParams /\
  PowLimitBits JunkcoinMainNetParams = 0x1e0ffff0 /\
  PowLimitBits JunkcoinTestNetParams = 0x1e0ffff0 /\
  PowLimitBits JunkcoinMainNetParams = PowLimitBits JunkcoinTestNetParams.
Proof.
  cbn [PowLimit PowLimitBits JunkcoinMainNetParams JunkcoinTestNetParams].
  rewrite junkcoinMainPowLimit_value, junkcoinTestNetPowLimit_value.
  repeat split.
Qed.

(** C1, as the code has it: the compact limit 0x1e0ffff0 decodes to
    0x0ffff0 * 256^27, which is above the limit 2^224 - 1 of either
    parameter set; the compact form of 2^224 - 1 is 0x1d00ffff. *)
Theorem PowLimitBits_exceeds_PowLimit :
  CompactToBig (PowLimitBits JunkcoinMainNetParams) = 0x0ffff0 * 256 ^ (0x1e - 3) /\
  PowLimit JunkcoinMainNetParams < CompactToBig (PowLimitBits JunkcoinMainNetParams) /\
  CompactToBig (PowLimitBits JunkcoinTestNetParams) = 0x0ffff0 * 256 ^ (0x1e - 3) /\
  PowLimit JunkcoinTestNetParams < CompactToBig (PowLimitBits JunkcoinTestNetParams) /\
  BigToCompact (PowLimit JunkcoinMainNetParams) = 0x1d00ffff /\
  BigToCompact (PowLimit JunkcoinTestNetParams) = 0x1d00ffff.
Proof.
  cbn [PowLimit PowLimitBits JunkcoinMainNetParams JunkcoinTestNetParams].
  rewrite junkcoinMainPowLimit_value, junkcoinTestNetPowLimit_value.
  rewrite CompactToBig_large by (vm_compute; lia || reflexivity).
  repeat split; vm_compute; reflexivity.
Qed.

(** ** Genesis blocks *)

(** C3: for both parameter sets the stored genesis hash is the block hash
    recomputed from the stored genesis block. *)
Theorem GenesisHash_roundtrip :
  wire.BlockHash (load_block (GenesisBlock JunkcoinMainNetParams)) =
    load_hash (GenesisHash JunkcoinMainNetParams) /\
  wire.BlockHash (load_block (GenesisBlock JunkcoinTestNetParams)) =
    load_hash (GenesisHash JunkcoinTestNetParams).
Proof.
  split.
  - cbn [GenesisBlock GenesisHash JunkcoinMainNetParams load_block load_hash].
    unfold junkcoinGenesisHash. reflexivity.
  - cbn [GenesisBlock GenesisHash JunkcoinTestNetParams load_block load_hash].
    unfold junkcoinTestNetGenesisHash. reflexivity.
Qed.

Lemma genesis_merkle_roots_equal :
  junkcoinGenesisMerkleRoot = junkcoinTestNetGenesisMerkleRoot.
Proof. reflexivity. Qed.

(** C9: each genesis block holds exactly one transaction, the shared
    [genesisCoinbaseTx]; both headers commit the merkle root 4a5e...a33b;
    the headers agree on every field but [Timestamp] and [Nonce]. *)
Theorem genesis_blocks_share_coinbase :
  let main := load_block (GenesisBlock JunkcoinMainNetParams) in
  let test := load_block (GenesisBlock JunkcoinTestNetParams) in
  wire.Transactions main = [wire.addr_genesisCoinbaseTx] /\
  wire.Transactions test = [wire.addr_genesisCoinbaseTx] /\
  map load_tx (wire.Transactions main) = [genesisCoinbaseTx] /\
  map load_tx (wire.Transactions test) = [genesisCoinbaseTx] /\
  chainhash.String (wire.MerkleRoot (wire.Header main)) =
    "4a5e1e4baab89f3a32518a88c31bc87f618f76673e2cc77ab2127b7afdeda33b" /\
  wire.MerkleRoot (wire.Header test) = wire.MerkleRoot (wire.Header main) /\
  wire.Version (wire.Header test) = wire.Version (wire.Header main) /\
  wire.PrevBlock (wire.Header test) = wire.PrevBlock (wire.Header main) /\
  wire.Bits (wire.Header test) = wire.Bits (wire.Header main) /\
  wire.Timestamp (wire.Header test) <> wire.Timestamp (wire.Header main) /\
  wire.Nonce (wire.Header test) <> wire.Nonce (wire.Header main).
Proof.
  cbn zeta.
  cbn [GenesisBlock JunkcoinMainNetParams JunkcoinTestNetParams load_block].
  cbn [junkcoinGenesisBlock junkcoinTestNetGenesisBlock
       wire.Transactions wire.Header wire.MerkleRoot wire.Version
       wire.PrevBlock wire.Bits wire.Timestamp wire.Nonce map load_tx].
  repeat match goal with |- _ /\ _ => apply conj end;
    try reflexivity.
  - intros H. apply (f_equal time.sec) in H. vm_compute in H. discriminate H.
  - intros H. discriminate H.
Qed.

(** ** Checkpoints *)

Lemma strictly_increasing_lower_bound (a : Z) (hs : list Z) :
  strictly_increasing (a :: hs) = true -> Forall (Z.lt a) hs.
Proof.
  revert a. induction hs as [| b hs IH]; intros a H.
  - constructor.
  - cbn in H. apply andb_prop in H as [Hab Hrest].
    apply Z.ltb_lt in Hab.
    constructor; [exact Hab |].
    eapply Forall_impl; [apply IH; exact Hrest |].
    cbn. intros c Hc. lia.
Qed.

Lemma strictly_increasing_tail (a : Z) (hs : list Z) :
  strictly_increasing (a :: hs) = true -> strictly_increasing hs = true.
Proof.
  destruct hs as [| b hs]; [reflexivity |].
  intros H. cbn in H. apply andb_prop in H as [_ H]. exact H.
Qed.

Lemma strictly_increasing_sorted (hs : list Z) :
  strictly_increasing hs = true -> StronglySorted Z.lt hs.
Proof.
  induction hs as [| a hs IH]; intros H.
  - constructor.
  - constructor.
    + apply IH. eapply strictly_increasing_tail. exact H.
    + apply strictly_increasing_lower_bound. exact H.
Qed.

Lemma sorted_heights_NoDup (hs : list Z) :
  StronglySorted Z.lt hs -> NoDup hs.
Proof.
  induction 1 as [| a hs Hs IH Hall].
  - constructor.
  - constructor; [| exact IH].
    intros Hin. rewrite Forall_forall in Hall.
    specialize (Hall a Hin). lia.
Qed.

(** C4: in both parameter sets the checkpoint heights are strictly
    increasing, so no height occurs twice. *)
Theorem Checkpoints_strictly_increasing :
  StronglySorted Z.lt (checkpoint_heights JunkcoinMainNetParams) /\
  NoDup (checkpoint_heights JunkcoinMainNetParams) /\
  StronglySorted Z.lt (checkpoint_heights JunkcoinTestNetParams) /\
  NoDup (checkpoint_heights JunkcoinTestNetParams).
Proof.
  assert (Hm : StronglySorted Z.lt (checkpoint_heights JunkcoinMainNetParams))
    by (apply strictly_increasing_sorted; reflexivity).
  assert (Ht : StronglySorted Z.lt (checkpoint_heights JunkcoinTestNetParams))
    by (apply strictly_increasing_sorted; reflexivity).
  auto using sorted_heights_NoDup.
Qed.

Lemma hash_eqb_eq (a b : chainhash.Hash) : hash_eqb a b = true <-> a = b.
Proof. unfold hash_eqb. apply bool_decide_eq_true. Qed.

Lemma hash_eqb_neq (a b : chainhash.Hash) : hash_eqb a b = false <-> a <> b.
Proof. unfold hash_eqb. apply bool_decide_eq_false. Qed.

(** The entry of the mainnet table at height 0. *)
Lemma checkpoint_at_genesis :
  exists c, checkpoint_at JunkcoinMainNetParams 0 = Some c /\
    chainhash.String (CheckpointHash c) =
    "a2effa738145e377e08a61d76179c21703e13e48910b30a2a87f0dfe794b64c6".
Proof. eexists. split; [reflexivity | vm_compute; reflexivity]. Qed.

(** With a checkpoint at the height, [verify] accepts its hash and rejects
    every other hash. *)
Lemma verify_at_checkpoint (params : Params) (height : Z) (c : Checkpoint)
    (hash : chainhash.Hash) :
  checkpoint_at params height = Some c ->
  verify params height hash =
  if hash_eqb hash (CheckpointHash c) then Ok tt else Err CheckpointMismatch.
Proof. intros H. unfold verify. rewrite H. reflexivity. Qed.

Lemma verify_mismatch (params : Params) (height : Z) (c : Checkpoint)
    (hash : chainhash.Hash) :
  checkpoint_at params height = Some c ->
  hash <> CheckpointHash c ->
  verify params height hash = Err CheckpointMismatch.
Proof.
  intros H Hne. rewrite (verify_at_checkpoint _ _ c) by exact H.
  apply hash_eqb_neq in Hne. rewrite Hne. reflexivity.
Qed.

Lemma verify_no_checkpoint (params : Params) (height : Z)
    (hash : chainhash.Hash) :
  checkpoint_at params height = None -> verify params height hash = Ok tt.
Proof. intros H. unfold verify. rewrite H. reflexivity. Qed.

Lemma load_hash_main :
  load_hash (GenesisHash JunkcoinMainNetParams) = junkcoinGenesisHash.
Proof. reflexivity. Qed.

Lemma load_hash_test :
  load_hash (GenesisHash JunkcoinTestNetParams) = junkcoinTestNetGenesisHash.
Proof. reflexivity. Qed.

(** At height 0 the mainnet policy accepts exactly the hash of its table. *)
Lemma verify_height0_spec :
  exists c, checkpoint_at JunkcoinMainNetParams 0 = Some c /\
    verify JunkcoinMainNetParams 0 (CheckpointHash c) = Ok tt /\
    forall hash, hash <> CheckpointHash c ->
      verify JunkcoinMainNetParams 0 hash = Err CheckpointMismatch.
Proof.
  destruct checkpoint_at_genesis as (c & Hc & _).
  exists c. split; [exact Hc |]. split.
  - rewrite (verify_at_checkpoint _ _ c) by exact Hc.
    replace (hash_eqb (CheckpointHash c) (CheckpointHash c)) with true;
      [reflexivity |].
    symmetry. apply hash_eqb_eq. reflexivity.
  - intros hash Hne. apply (verify_mismatch _ _ c); assumption.
Qed.

(** C2, as the code has it: the hash of the stored mainnet genesis block is
    0000...e26f, the checkpoint at height 0 is a2ef...64c6, and [verify] at
    height 0 on the stored genesis hash fails with [CheckpointMismatch]. *)
Theorem verify_genesis_hash_mismatch :
  verify JunkcoinMainNetParams 0
    (load_hash (GenesisHash JunkcoinMainNetParams)) = Err CheckpointMismatch.
Proof.
  destruct checkpoint_at_genesis as (c & Hc & Hs).
  apply (verify_mismatch _ _ c); [exact Hc |].
  rewrite load_hash_main.
  intros Heq. apply (f_equal chainhash.String) in Heq.
  rewrite Hs, junkcoinGenesisHash_value in Heq. discriminate Heq.
Qed.

(** ** Voting window and retarget window *)

(** C7: the activation threshold does not exceed the confirmation window. *)
Theorem threshold_le_window :
  RuleChangeActivationThreshold JunkcoinMainNetParams = 9576 /\
  MinerConfirmationWindow JunkcoinMainNetParams = 10080 /\
  RuleChangeActivationThreshold JunkcoinMainNetParams
    <= MinerConfirmationWindow JunkcoinMainNetParams /\
  RuleChangeActivationThreshold JunkcoinTestNetParams = 1512 /\
  MinerConfirmationWindow JunkcoinTestNetParams = 2016 /\
  RuleChangeActivationThreshold JunkcoinTestNetParams
    <= MinerConfirmationWindow JunkcoinTestNetParams.
Proof. cbn. repeat split; lia. Qed.

(** C8: the retarget window is a whole number of blocks: 1440 on mainnet
    and 240 on testnet, with no remainder. *)
Theorem blocks_per_retarget_exact :
  blocks_per_retarget JunkcoinMainNetParams = 1440 /\
  Z.rem (TargetTimespan JunkcoinMainNetParams)
        (TargetTimePerBlock JunkcoinMainNetParams) = 0 /\
  TargetTimespan JunkcoinMainNetParams =
    1440 * TargetTimePerBlock JunkcoinMainNetParams /\
  blocks_per_retarget JunkcoinTestNetParams = 240 /\
  Z.rem (TargetTimespan JunkcoinTestNetParams)
        (TargetTimePerBlock JunkcoinTestNetParams) = 0 /\
  TargetTimespan JunkcoinTestNetParams =
    240 * TargetTimePerBlock JunkcoinTestNetParams.
Proof. repeat split. Qed.

(** ** Registry *)

Lemma is_present_true {A} (o : option A) : is_present o = true <-> is_Some o.
Proof.
  destruct o; cbn; split; intros H; try done.
Qed.

(** A registration whose magic or name is taken fails and leaves the
    registry as it was. *)
Lemma Register_duplicate (params : Params) (r : Registry) :
  is_Some (lookup_by_magic r (Net params)) \/
  is_Some (lookup_by_name r (Name params)) ->
  Register params r = (Err DuplicateNetwork, r).
Proof.
  intros H. unfold Register.
  replace (is_present (lookup_by_magic r (Net params))
           || is_present (lookup_by_name r (Name params))) with true;
    [reflexivity |].
  symmetry. apply orb_true_iff.
  destruct H as [H | H]; [left | right]; apply is_present_true; exact H.
Qed.

(** A registration with a fresh magic and a fresh name succeeds and updates
    both maps. *)
Lemma Register_fresh (params : Params) (r : Registry) :
  lookup_by_magic r (Net params) = None ->
  lookup_by_name r (Name params) = None ->
  Register params r =
  (Ok tt, {| by_magic := <[Net params := params]> (by_magic r);
             by_name := <[Name params := params]> (by_name r) |}).
Proof. intros Hm Hn. unfold Register. rewrite Hm, Hn. reflexivity. Qed.

Lemma consistent_empty : consistent empty_registry.
Proof.
  split; cbn; intros k p H; rewrite lookup_empty in H; discriminate H.
Qed.

(** Registration keeps the two maps in step. *)
Lemma Register_consistent (params : Params) (r : Registry) :
  consistent r -> consistent (snd (Register params r)).
Proof.
  intros [Hmag Hnam].
  destruct (lookup_by_magic r (Net params)) as [q |] eqn:Em.
  { rewrite Register_duplicate by (left; eauto). split; assumption. }
  destruct (lookup_by_name r (Name params)) as [q |] eqn:En.
  { rewrite Register_duplicate by (right; eauto). split; assumption. }
  rewrite Register_fresh by assumption.
  unfold lookup_by_magic, lookup_by_name in Em, En.
  split; cbn [snd by_magic by_name].
  - intros m p H.
    destruct (decide (Net params = m)) as [Heq | Hne].
    + subst m. rewrite lookup_insert_eq in H. injection H as <-.
      split; [reflexivity | apply lookup_insert_eq].
    + rewrite lookup_insert_ne in H by exact Hne.
      destruct (Hmag m p H) as [Hnet Hname].
      split; [exact Hnet |].
      rewrite lookup_insert_ne; [exact Hname |].
      intros Heq. rewrite Heq, Hname in En. discriminate En.
  - intros n p H.
    destruct (decide (Name params = n)) as [Heq | Hne].
    + subst n. rewrite lookup_insert_eq in H. injection H as <-.
      split; [reflexivity | apply lookup_insert_eq].
    + rewrite lookup_insert_ne in H by exact Hne.
      destruct (Hnam n p H) as [Hname Hnet].
      split; [exact Hname |].
      rewrite lookup_insert_ne; [exact Hnet |].
      intros Heq. rewrite Heq, Hnet in Em. discriminate Em.
Qed.

(** In a consistent registry two registered sets with the same magic, or
    with the same name, are the same set. *)
Lemma consistent_unique (r : Registry) (p q : Params) :
  consistent r -> registered r p -> registered r q ->
  Net p = Net q \/ Name p = Name q -> p = q.
Proof.
  intros [Hmag Hnam] [mp Hp] [mq Hq] Hsame.
  destruct (Hmag mp p Hp) as [Hnp Hp'].
  destruct (Hmag mq q Hq) as [Hnq Hq'].
  destruct Hsame as [Hnet | Hname].
  - assert (mp = mq) by congruence. subst mq. congruence.
  - rewrite Hname in Hp'. congruence.
Qed.

Lemma consistent_lookup_by_magic (r : Registry) (magic : Z) (p : Params) :
  consistent r -> lookup_by_magic r magic = Some p -> Net p = magic.
Proof. intros [Hmag _] H. apply (Hmag magic p H). Qed.

Lemma consistent_lookup_by_name (r : Registry) (name : string) (p : Params) :
  consistent r -> lookup_by_name r name = Some p -> Name p = name.
Proof. intros [_ Hnam] H. apply (Hnam name p H). Qed.

Lemma registry_after_init_consistent : consistent registry_after_init.
Proof.
  unfold registry_after_init.
  do 2 apply Register_consistent. apply consistent_empty.
Qed.

Lemma names_differ :
  Name JunkcoinMainNetParams <> Name JunkcoinTestNetParams.
Proof. intros H. discriminate H. Qed.

Lemma magics_differ : Net JunkcoinMainNetParams <> Net JunkcoinTestNetParams.
Proof. intros H. discriminate H. Qed.

Lemma init_succeeds : init empty_registry = Ok registry_after_init.
Proof.
  unfold registry_after_init, init.
  rewrite (Register_fresh JunkcoinMainNetParams empty_registry)
    by apply lookup_empty.
  cbn [snd].
  rewrite Register_fresh; [reflexivity | |].
  - unfold lookup_by_magic. cbn [by_magic].
    rewrite lookup_insert_ne by apply magics_differ. apply lookup_empty.
  - unfold lookup_by_name. cbn [by_name].
    rewrite lookup_insert_ne by apply names_differ. apply lookup_empty.
Qed.

Lemma registry_after_init_eq :
  registry_after_init =
  {| by_magic := <[Net JunkcoinTestNetParams := JunkcoinTestNetParams]>
                   (<[Net JunkcoinMainNetParams := JunkcoinMainNetParams]> ∅);
     by_name := <[Name JunkcoinTestNetParams := JunkcoinTestNetParams]>
                  (<[Name JunkcoinMainNetParams := JunkcoinMainNetParams]> ∅) |}.
Proof.
  unfold registry_after_init.
  rewrite (Register_fresh JunkcoinMainNetParams empty_registry)
    by apply lookup_empty.
  cbn [snd].
  rewrite Register_fresh; [reflexivity | |].
  - unfold lookup_by_magic. cbn [by_magic].
    rewrite lookup_insert_ne by apply magics_differ. apply lookup_empty.
  - unfold lookup_by_name. cbn [by_name].
    rewrite lookup_insert_ne by apply names_differ. apply lookup_empty.
Qed.

Lemma lookup_main_after_init :
  lookup_by_magic registry_after_init 0x6a756e6b = Some JunkcoinMainNetParams.
Proof.
  rewrite registry_after_init_eq. unfold lookup_by_magic. cbn [by_magic].
  rewrite lookup_insert_ne by (symmetry; apply magics_differ).
  apply (lookup_insert_eq (M:=gmap Z)).
Qed.

Lemma lookup_test_after_init :
  lookup_by_magic registry_after_init 0x6a756e6c = Some JunkcoinTestNetParams.
Proof.
  rewrite registry_after_init_eq. unfold lookup_by_magic. cbn [by_magic].
  apply (lookup_insert_eq (M:=gmap Z)).
Qed.

(** C5: [init] on the empty registry registers both networks; afterwards
    magics and names are pairwise unique, lookup by magic returns the
    matching set, and a further registration that reuses magic 0x6a756e6b or
    a registered name fails with [DuplicateNetwork] and changes nothing. *)
Theorem registry_after_init_spec :
  init empty_registry = Ok registry_after_init /\
  (forall p q, registered registry_after_init p ->
     registered registry_after_init q ->
     Net p = Net q \/ Name p = Name q -> p = q) /\
  lookup_by_magic registry_after_init 0x6a756e6b = Some JunkcoinMainNetParams /\
  lookup_by_magic registry_after_init 0x6a756e6c = Some JunkcoinTestNetParams /\
  (forall magic p, lookup_by_magic registry_after_init magic = Some p ->
     Net p = magic) /\
  (forall params,
     Net params = 0x6a756e6b \/
     is_Some (lookup_by_name registry_after_init (Name params)) ->
     Register params registry_after_init =
     (Err DuplicateNetwork, registry_after_init)).
Proof.
  pose proof registry_after_init_consistent as Hc.
  split; [apply init_succeeds |].
  split; [intros p q; apply consistent_unique; exact Hc |].
  split; [apply lookup_main_after_init |].
  split; [apply lookup_test_after_init |].
  split; [intros magic p; apply consistent_lookup_by_magic; exact Hc |].
  intros params [Hnet | Hname]; apply Register_duplicate.
  - left. rewrite Hnet, lookup_main_after_init. eauto.
  - right. exact Hname.
Qed.

Lemma registry_after_init_spec_witness :
  Net clashing_params = 0x6a756e6b /\
  Register clashing_params registry_after_init =
  (Err DuplicateNetwork, registry_after_init).
Proof.
  split; [reflexivity |].
  apply (proj2 (proj2 (proj2 (proj2 (proj2 registry_after_init_spec))))).
  left. reflexivity.
Defined.

(** ** Difficulty retarget *)

Lemma scale_target_min (params : Params) (old_target : Z)
    (timespan : time.Duration) :
  scale_target params old_target timespan =
  Z.min (old_target * timespan / TargetTimespan params) (PowLimit params).
Proof.
  unfold scale_target. cbv zeta.
  destruct (Z.ltb_spec (PowLimit params)
              (old_target * timespan / TargetTimespan params)); lia.
Qed.

(** The clamp returns a value inside the allowed interval whenever the
    interval is not empty. *)
Lemma clamp_timespan_bounds (params : Params) (actual : time.Duration) :
  min_retarget_timespan params <= max_retarget_timespan params ->
  min_retarget_timespan params <= clamp_timespan params actual
    <= max_retarget_timespan params.
Proof.
  intros Hle. unfold clamp_timespan.
  destruct (Z.ltb_spec actual (min_retarget_timespan params)); [lia |].
  destruct (Z.ltb_spec (max_retarget_timespan params) actual); lia.
Qed.

Lemma clamp_timespan_below (params : Params) (actual : time.Duration) :
  actual < min_retarget_timespan params ->
  clamp_timespan params actual = min_retarget_timespan params.
Proof.
  intros Hlt. unfold clamp_timespan.
  destruct (Z.ltb_spec actual (min_retarget_timespan params)); [reflexivity | lia].
Qed.

Lemma mainnet_min_retarget_timespan :
  min_retarget_timespan JunkcoinMainNetParams = 6 * time.Hour.
Proof. reflexivity. Qed.

Lemma mainnet_clamp_one_hour :
  clamp_timespan JunkcoinMainNetParams time.Hour = 6 * time.Hour.
Proof.
  rewrite clamp_timespan_below; rewrite mainnet_min_retarget_timespan;
    [reflexivity | reflexivity].
Qed.

(** On a retarget boundary with a full window behind it, the policy
    retargets from the previous block's bits and the window's timespan. *)
Lemma next_required_difficulty_boundary (params : Params) (height : Z)
    (now : time.Time) (hdrs : list wire.BlockHeader)
    (prev first : wire.BlockHeader) :
  Z.rem height (blocks_per_retarget params) = 0 ->
  nth_error hdrs 0 = Some prev ->
  nth_error hdrs (Z.to_nat (blocks_per_retarget params - 1)) = Some first ->
  next_required_difficulty params height now hdrs =
  Some (retarget params (wire.Bits prev)
          (time.Sub (wire.Timestamp prev) (wire.Timestamp first))).
Proof.
  intros Hrem Hprev Hfirst. unfold next_required_difficulty.
  destruct hdrs as [| h hdrs']; [discriminate Hprev |].
  cbn [nth_error] in Hprev. injection Hprev as ->.
  rewrite Hrem. cbn [Z.eqb negb]. rewrite Hfirst. reflexivity.
Qed.

(** C6: on mainnet, a retarget window observed to span one hour is clamped
    to TargetTimespan / 4 = 6 hours, and the next difficulty is the compact
    form of old_target * 6h / 24h (capped by the limit): the same result as
    for an observed timespan of exactly six hours. *)
Theorem one_hour_timespan_clamped (height : Z) (now : time.Time)
    (hdrs : list wire.BlockHeader) (prev first : wire.BlockHeader) :
  Z.rem height (blocks_per_retarget JunkcoinMainNetParams) = 0 ->
  nth_error hdrs 0 = Some prev ->
  nth_error hdrs 1439 = Some first ->
  time.Sub (wire.Timestamp prev) (wire.Timestamp first) = time.Hour ->
  clamp_timespan JunkcoinMainNetParams time.Hour =
    Z.quot (TargetTimespan JunkcoinMainNetParams) 4 /\
  clamp_timespan JunkcoinMainNetParams time.Hour = 6 * time.Hour /\
  next_required_difficulty JunkcoinMainNetParams height now hdrs =
    Some (BigToCompact
            (Z.min (CompactToBig (wire.Bits prev) * (6 * time.Hour)
                      / (24 * time.Hour))
                   (2 ^ 224 - 1))) /\
  next_required_difficulty JunkcoinMainNetParams height now hdrs =
    Some (retarget JunkcoinMainNetParams (wire.Bits prev) (6 * time.Hour)).
Proof.
  intros Hrem Hprev Hfirst Hspan.
  pose proof mainnet_clamp_one_hour as Hclamp.
  assert (Hnext :
    next_required_difficulty JunkcoinMainNetParams height now hdrs =
    Some (retarget JunkcoinMainNetParams (wire.Bits prev) time.Hour)).
  { rewrite (next_required_difficulty_boundary _ _ _ _ prev first Hrem Hprev)
      by exact Hfirst.
    rewrite Hspan. reflexivity. }
  assert (Hsix : forall bits,
    retarget JunkcoinMainNetParams bits time.Hour =
    retarget JunkcoinMainNetParams bits (6 * time.Hour)).
  { intros bits. unfold retarget. rewrite Hclamp. reflexivity. }
  split; [rewrite Hclamp; reflexivity |].
  split; [exact Hclamp |].
  split; [| rewrite Hnext, Hsix; reflexivity].
  rewrite Hnext. unfold retarget. rewrite Hclamp, scale_target_min.
  cbn [PowLimit TargetTimespan JunkcoinMainNetParams].
  rewrite junkcoinMainPowLimit_value.
  replace (time.Hour * 24) with (24 * time.Hour) by reflexivity.
  reflexivity.
Qed.

Lemma one_hour_timespan_clamped_witness :
  next_required_difficulty JunkcoinMainNetParams 1440
    (time.Unix 1700003660 0) sample_window = Some 0x1b3fffc0.
Proof.
  refine (eq_trans
    (proj2 (proj2 (proj2
       (one_hour_timespan_clamped 1440 (time.Unix 1700003660 0) sample_window
          (sample_header 1700003600) (sample_header 1700000000)
          _ _ _ _)))) _);
    vm_compute; reflexivity.
Defined.

(** The unclamped timespan would have given another result: for the old
    bits 0x1c00ffff the policy answers 0x1b3fffc0, a quarter of the old
    target, where one 24th of it would encode as 0x1b0aaaa0. *)
Lemma raw_hour_not_used :
  retarget JunkcoinMainNetParams 0x1c00ffff time.Hour = 0x1b3fffc0 /\
  BigToCompact
    (scale_target JunkcoinMainNetParams (CompactToBig 0x1c00ffff) time.Hour)
  = 0x1b0aaaa0.
Proof. split; vm_compute; reflexivity. Qed.

(** ** Parsing hash strings *)

Lemma pair_induction {A} (P : list A -> Prop) :
  P [] -> (forall a, P [a]) -> (forall a b l, P l -> P (a :: b :: l)) ->
  forall l, P l.
Proof.
  intros Hnil Hone Hstep l.
  assert (H : P l /\ forall a, P (a :: l)).
  { induction l as [| b l [IH1 IH2]].
    - split; [exact Hnil | exact Hone].
    - split; [apply IH2 |]. intros a. apply Hstep. exact IH1. }
  apply H.
Qed.

Lemma fromHexChar_range (c : ascii) (n : Z) :
  chainhash.fromHexChar c = Some n -> 0 <= n < 16.
Proof.
  unfold chainhash.fromHexChar.
  set (k := Z.of_nat (nat_of_ascii c)).
  destruct (Z.leb_spec 48 k), (Z.leb_spec k 57); cbn [andb];
    try (intros Hx; injection Hx as <-; lia);
    destruct (Z.leb_spec 97 k), (Z.leb_spec k 102); cbn [andb];
    try (intros Hx; injection Hx as <-; lia);
    destruct (Z.leb_spec 65 k), (Z.leb_spec k 70); cbn [andb];
    try (intros Hx; injection Hx as <-; lia); intros Hx; discriminate Hx.
Qed.

Lemma nibble_cases (n : Z) :
  0 <= n < 16 ->
  In n [0; 1; 2; 3; 4; 5; 6; 7; 8; 9; 10; 11; 12; 13; 14; 15].
Proof. intros H. cbn. lia. Qed.

Lemma fromHexChar_nibble (n : Z) :
  0 <= n < 16 -> chainhash.fromHexChar (nibble_hex n) = Some n.
Proof.
  intros H. apply nibble_cases in H. cbn in H.
  repeat (destruct H as [<- | H]; [reflexivity |]). destruct H.
Qed.

Lemma list_ascii_length (s : string) :
  length (list_ascii_of_string s) = String.length s.
Proof. induction s as [| c s IH]; cbn; [reflexivity | now rewrite IH]. Qed.

Lemma hex_decode_cons2 (hi lo : ascii) (rest : list ascii) :
  chainhash.hex_decode (hi :: lo :: rest) =
  match chainhash.fromHexChar hi, chainhash.fromHexChar lo with
  | Some a, Some b =>
      match chainhash.hex_decode rest with
      | Ok bs => Ok ((a * 16 + b) :: bs)
      | Err e => Err e
      end
  | None, _ => Err (chainhash.InvalidByteError hi)
  | _, None => Err (chainhash.InvalidByteError lo)
  end.
Proof. reflexivity. Qed.

Lemma hex_decode_length (src : list ascii) (bs : list byte) :
  chainhash.hex_decode src = Ok bs -> length bs = Nat.div2 (length src).
Proof.
  revert bs. induction src as [| a | hi lo rest IH] using pair_induction;
    intros bs H.
  - injection H as <-. reflexivity.
  - injection H as <-. reflexivity.
  - rewrite hex_decode_cons2 in H.
    destruct (chainhash.fromHexChar hi), (chainhash.fromHexChar lo);
      try discriminate H.
    destruct (chainhash.hex_decode rest) as [bs' |]; [| discriminate H].
    injection H as <-. cbn [length Nat.div2]. now rewrite (IH bs').
Qed.

Lemma hex_decode_bytes (src : list ascii) (bs : list byte) :
  chainhash.hex_decode src = Ok bs -> Forall is_byte bs.
Proof.
  revert bs. induction src as [| a | hi lo rest IH] using pair_induction;
    intros bs H.
  - injection H as <-. constructor.
  - injection H as <-. constructor.
  - rewrite hex_decode_cons2 in H.
    destruct (chainhash.fromHexChar hi) as [a |] eqn:Ea; [| discriminate H].
    destruct (chainhash.fromHexChar lo) as [b |] eqn:Eb; [| discriminate H].
    destruct (chainhash.hex_decode rest) as [bs' |]; [| discriminate H].
    injection H as <-.
    apply fromHexChar_range in Ea, Eb.
    constructor; [unfold is_byte; lia | now apply IH].
Qed.

Lemma is_hex_true (c : ascii) :
  is_hex c = true -> exists n, chainhash.fromHexChar c = Some n.
Proof.
  unfold is_hex. destruct (chainhash.fromHexChar c) as [n |]; cbn;
    [eauto | discriminate].
Qed.

(** Decoding succeeds on hexadecimal characters. *)
Lemma hex_decode_ok (src : list ascii) :
  Forall (fun c => is_hex c = true) src ->
  exists bs, chainhash.hex_decode src = Ok bs.
Proof.
  induction src as [| a | hi lo rest IH] using pair_induction; intros H.
  - now exists [].
  - now exists [].
  - inversion H as [| ? ? Hhi H']; subst.
    inversion H' as [| ? ? Hlo Hrest]; subst.
    apply is_hex_true in Hhi as [a Ha]. apply is_hex_true in Hlo as [b Hb].
    destruct (IH Hrest) as [bs Hbs].
    exists ((a * 16 + b) :: bs).
    now rewrite hex_decode_cons2, Ha, Hb, Hbs.
Qed.

(** Decoding a source of even length succeeds only on hexadecimal
    characters. *)
Lemma hex_decode_ok_inv (src : list ascii) (bs : list byte) :
  Nat.even (length src) = true ->
  chainhash.hex_decode src = Ok bs ->
  Forall (fun c => is_hex c = true) src.
Proof.
  revert bs. induction src as [| a | hi lo rest IH] using pair_induction;
    intros bs Hev H.
  - constructor.
  - discriminate Hev.
  - rewrite hex_decode_cons2 in H.
    destruct (chainhash.fromHexChar hi) as [a |] eqn:Ea; [| discriminate H].
    destruct (chainhash.fromHexChar lo) as [b |] eqn:Eb; [| discriminate H].
    destruct (chainhash.hex_decode rest) as [bs' |] eqn:Er; [| discriminate H].
    constructor; [unfold is_hex; now rewrite Ea |].
    constructor; [unfold is_hex; now rewrite Eb |].
    apply (IH bs'); [exact Hev | reflexivity].
Qed.

Lemma NewHashFromStr_unfold (s : string) :
  chainhash.NewHashFromStr s =
  let src := list_ascii_of_string s in
  if (64 <? length src)%nat then Err chainhash.ErrHashStrSize
  else
    match chainhash.hex_decode
            (if Nat.even (length src) then src else "0"%char :: src) with
    | Ok bs => Ok (rev (repeat 0 (32 - length bs) ++ bs))
    | Err e => Err e
    end.
Proof. reflexivity. Qed.

Lemma mustParseHash_unfold (s : string) :
  mustParseHash s =
  match chainhash.NewHashFromStr s with
  | Ok h => Ok h
  | Err e => Err (panic e)
  end.
Proof. reflexivity. Qed.

Lemma padded_source_even (src : list ascii) :
  Nat.even (length (if Nat.even (length src) then src else "0"%char :: src))
  = true.
Proof.
  destruct (Nat.even (length src)) eqn:E; [exact E |].
  cbn [length]. rewrite Nat.even_succ, <- Nat.negb_even, E. reflexivity.
Qed.

Lemma padded_source_length (src : list ascii) :
  (length src <= 64)%nat ->
  (length (if Nat.even (length src) then src else "0"%char :: src) <= 64)%nat.
Proof.
  intros Hle. destruct (Nat.even (length src)) eqn:E; [exact Hle |].
  cbn [length].
  destruct (Nat.eq_dec (length src) 64%nat) as [H64 | Hne]; [| lia].
  rewrite H64 in E. discriminate E.
Qed.

(** [mustParseHash] returns a hash exactly on the strings of at most 64
    hexadecimal characters, and panics on every other string. *)
Theorem mustParseHash_ok_iff (s : string) :
  IsOk (mustParseHash s) <->
  (String.length s <= 64)%nat /\
  Forall (fun c => is_hex c = true) (list_ascii_of_string s).
Proof.
  rewrite mustParseHash_unfold, NewHashFromStr_unfold. cbv zeta.
  rewrite <- (list_ascii_length s).
  set (src := list_ascii_of_string s).
  destruct (Nat.ltb_spec 64 (length src)) as [Hlong | Hshort].
  { cbn. split; [intros [] | intros [Hle _]; lia]. }
  pose proof (padded_source_even src) as Hev.
  destruct (chainhash.hex_decode _) as [bs | e] eqn:Hdec; cbn.
  - split; [intros _ | trivial]. split; [exact Hshort |].
    apply hex_decode_ok_inv in Hdec; [| exact Hev].
    destruct (Nat.even (length src)); [exact Hdec |].
    inversion Hdec; assumption.
  - split; [intros [] | intros [_ Hall]].
    assert (Hall' : Forall (fun c => is_hex c = true)
              (if Nat.even (length src) then src else "0"%char :: src)).
    { destruct (Nat.even (length src)); [exact Hall |].
      constructor; [reflexivity | exact Hall]. }
    apply hex_decode_ok in Hall' as [bs Hbs].
    rewrite Hbs in Hdec. discriminate Hdec.
Qed.

(** A string longer than 64 characters is refused for its size, whatever
    its characters. *)
Lemma mustParseHash_too_long (s : string) :
  (64 < String.length s)%nat ->
  mustParseHash s = Err (panic chainhash.ErrHashStrSize).
Proof.
  intros Hlong.
  rewrite mustParseHash_unfold, NewHashFromStr_unfold. cbv zeta.
  rewrite list_ascii_length.
  destruct (Nat.ltb_spec 64 (String.length s)); [reflexivity | lia].
Qed.

Lemma Forall_is_byte_repeat (n : nat) : Forall is_byte (repeat 0 n).
Proof.
  induction n as [| n IH]; cbn; constructor; [unfold is_byte; lia | exact IH].
Qed.

(** Whatever [mustParseHash] returns is a full hash: 32 bytes, each below
    256, also for strings shorter than 64 characters. *)
Theorem mustParseHash_wellformed (s : string) (h : chainhash.Hash) :
  mustParseHash s = Ok h ->
  length h = chainhash.HashSize /\ Forall is_byte h.
Proof.
  rewrite mustParseHash_unfold, NewHashFromStr_unfold. cbv zeta.
  set (src := list_ascii_of_string s).
  destruct (Nat.ltb_spec 64 (length src)) as [Hlong | Hshort];
    [discriminate |].
  pose proof (padded_source_length src Hshort) as Hlen.
  destruct (chainhash.hex_decode _) as [bs | e] eqn:Hdec; [| discriminate].
  intros H. injection H as <-.
  pose proof (hex_decode_length _ _ Hdec) as Hbs.
  pose proof (hex_decode_bytes _ _ Hdec) as Hbytes.
  assert (Hle32 : (length bs <= 32)%nat).
  { rewrite Hbs, Nat.div2_div.
    apply Nat.Div0.div_le_upper_bound. exact Hlen. }
  split.
  - rewrite length_rev, length_app, repeat_length.
    change chainhash.HashSize with 32%nat. apply Nat.sub_add. exact Hle32.
  - apply Forall_rev. apply Forall_app.
    split; [apply Forall_is_byte_repeat | exact Hbytes].
Qed.

Lemma mustParseHash_wellformed_witness :
  length junkcoinGenesisMerkleRoot = chainhash.HashSize /\
  Forall is_byte junkcoinGenesisMerkleRoot.
Proof.
  apply (mustParseHash_wellformed
    "4a5e1e4baab89f3a32518a88c31bc87f618f76673e2cc77ab2127b7afdeda33b").
  reflexivity.
Defined.

(** *** Round trips between hashes and their strings *)

Lemma hex_encode_length (bs : list byte) :
  length (list_ascii_of_string (hex_encode bs)) = (2 * length bs)%nat.
Proof.
  induction bs as [| b bs IH]; [reflexivity |].
  cbn [hex_encode list_ascii_of_string length]. rewrite IH. lia.
Qed.

Lemma hex_decode_encode (bs : list byte) :
  Forall is_byte bs ->
  chainhash.hex_decode (list_ascii_of_string (hex_encode bs)) = Ok bs.
Proof.
  induction 1 as [| b bs Hb _ IH]; [reflexivity |].
  cbn [hex_encode list_ascii_of_string].
  rewrite hex_decode_cons2, IH.
  unfold is_byte in Hb.
  rewrite !fromHexChar_nibble by (Z.div_mod_to_equations; lia).
  f_equal. f_equal. Z.div_mod_to_equations. lia.
Qed.

Lemma is_lower_hex_true (c : ascii) :
  is_lower_hex c = true ->
  exists n, chainhash.fromHexChar c = Some n /\ nibble_hex n = c.
Proof.
  unfold is_lower_hex.
  destruct (chainhash.fromHexChar c) as [n |]; [| discriminate].
  intros H. apply bool_decide_eq_true in H. eauto.
Qed.

Lemma is_lower_hex_is_hex (c : ascii) :
  is_lower_hex c = true -> is_hex c = true.
Proof.
  intros H. apply is_lower_hex_true in H as (n & Hn & _).
  unfold is_hex. now rewrite Hn.
Qed.

Lemma hex_encode_decode (src : list ascii) (bs : list byte) :
  Nat.even (length src) = true ->
  Forall (fun c => is_lower_hex c = true) src ->
  chainhash.hex_decode src = Ok bs ->
  hex_encode bs = string_of_list_ascii src.
Proof.
  revert bs. induction src as [| a | hi lo rest IH] using pair_induction;
    intros bs Hev Hall H.
  - injection H as <-. reflexivity.
  - discriminate Hev.
  - inversion Hall as [| ? ? Hhi Hall']; subst.
    inversion Hall' as [| ? ? Hlo Hrest]; subst.
    apply is_lower_hex_true in Hhi as (a & Ha & Hca).
    apply is_lower_hex_true in Hlo as (b & Hb & Hcb).
    rewrite hex_decode_cons2, Ha, Hb in H.
    destruct (chainhash.hex_decode rest) as [bs' |] eqn:Er; [| discriminate H].
    injection H as <-.
    apply fromHexChar_range in Ha, Hb.
    cbn [hex_encode string_of_list_ascii].
    rewrite (IH bs' Hev Hrest eq_refl).
    replace ((a * 16 + b) / 16) with a by (Z.div_mod_to_equations; lia).
    replace ((a * 16 + b) mod 16) with b by (Z.div_mod_to_equations; lia).
    now rewrite Hca, Hcb.
Qed.

(** Parsing the display string of a hash gives the hash back. *)
Theorem mustParseHash_String (h : chainhash.Hash) :
  length h = chainhash.HashSize -> Forall is_byte h ->
  mustParseHash (chainhash.String h) = Ok h.
Proof.
  intros Hlen Hbytes.
  rewrite mustParseHash_unfold, NewHashFromStr_unfold. cbv zeta.
  unfold chainhash.String.
  assert (Hrev : length (rev h) = 32%nat) by (rewrite length_rev; exact Hlen).
  rewrite hex_encode_length, Hrev. cbn [Nat.mul Nat.add Nat.ltb Nat.leb Nat.even].
  rewrite hex_decode_encode by (apply Forall_rev; exact Hbytes).
  rewrite Hrev. cbn [Nat.sub repeat app]. now rewrite rev_involutive.
Qed.

Lemma mustParseHash_String_witness :
  mustParseHash (chainhash.String junkcoinGenesisHash) = Ok junkcoinGenesisHash.
Proof.
  apply mustParseHash_String.
  - vm_compute. reflexivity.
  - vm_compute. repeat (constructor; [split; [discriminate | reflexivity] |]).
    constructor.
Defined.

Lemma Forall_forallb {A} (f : A -> bool) (l : list A) :
  forallb f l = true -> Forall (fun x => f x = true) l.
Proof.
  induction l as [| x l IH]; cbn [forallb]; intros H; constructor.
  - now apply andb_prop in H.
  - apply IH. now apply andb_prop in H.
Defined.

(** A string of 64 digits and lower-case letters [a]..[f] parses to a hash
    whose display string is that very string. *)
Theorem String_mustParseHash (s : string) :
  String.length s = 64%nat ->
  Forall (fun c => is_lower_hex c = true) (list_ascii_of_string s) ->
  exists h, mustParseHash s = Ok h /\ chainhash.String h = s.
Proof.
  intros Hlen Hall.
  rewrite mustParseHash_unfold, NewHashFromStr_unfold. cbv zeta.
  rewrite list_ascii_length, Hlen. cbn [Nat.ltb Nat.leb Nat.even].
  destruct (hex_decode_ok (list_ascii_of_string s)) as [bs Hbs].
  { eapply Forall_impl; [exact Hall | apply is_lower_hex_is_hex]. }
  rewrite Hbs.
  pose proof (hex_decode_length _ _ Hbs) as Hl.
  rewrite list_ascii_length, Hlen in Hl. cbn in Hl.
  exists (rev (repeat 0 (32 - length bs) ++ bs)).
  split; [reflexivity |].
  rewrite Hl. cbn [Nat.sub repeat app].
  unfold chainhash.String. rewrite rev_involutive.
  rewrite (hex_encode_decode (list_ascii_of_string s) bs).
  - apply string_of_list_ascii_of_string.
  - rewrite list_ascii_length, Hlen. reflexivity.
  - exact Hall.
  - exact Hbs.
Qed.

Lemma String_mustParseHash_witness :
  exists h,
    mustParseHash
      "a2effa738145e377e08a61d76179c21703e13e48910b30a2a87f0dfe794b64c6"
    = Ok h /\
    chainhash.String h =
      "a2effa738145e377e08a61d76179c21703e13e48910b30a2a87f0dfe794b64c6".
Proof.
  apply String_mustParseHash.
  - reflexivity.
  - apply Forall_forallb. vm_compute. reflexivity.
Defined.

(** *** Short strings *)

Lemma hex_decode_zeros (k : nat) (l : list ascii) :
  chainhash.hex_decode (repeat "0"%char (2 * k) ++ l) =
  match chainhash.hex_decode l with
  | Ok bs => Ok (repeat 0 k ++ bs)
  | Err e => Err e
  end.
Proof.
  induction k as [| k IH].
  - change (repeat "0"%char (2 * 0) ++ l) with l.
    destruct (chainhash.hex_decode l); reflexivity.
  - replace (2 * S k)%nat with (S (S (2 * k))) by lia.
    cbn [repeat app]. rewrite hex_decode_cons2, IH.
    change (chainhash.fromHexChar "0") with (Some 0).
    destruct (chainhash.hex_decode l); reflexivity.
Qed.

Lemma repeat_snoc_app {A} (x : A) (k : nat) (l : list A) :
  repeat x (S k) ++ l = repeat x k ++ x :: l.
Proof.
  induction k as [| k IH]; [reflexivity |].
  change (repeat x (S (S k)) ++ l) with (x :: (repeat x (S k) ++ l)).
  rewrite IH. reflexivity.
Qed.

Lemma zero_pad_long (s : string) :
  (64 <= String.length s)%nat -> zero_pad s = s.
Proof.
  intros H. unfold zero_pad. change chainhash.MaxHashStringSize with 64%nat.
  replace (64 - String.length s)%nat with 0%nat by lia.
  cbn [repeat app]. apply string_of_list_ascii_of_string.
Qed.

Lemma NewHashFromStr_zero_pad (s : string) :
  chainhash.NewHashFromStr (zero_pad s) = chainhash.NewHashFromStr s.
Proof.
  destruct (Nat.le_gt_cases 64 (String.length s)) as [Hlong | Hshort].
  { now rewrite zero_pad_long. }
  rewrite !NewHashFromStr_unfold. cbv zeta.
  unfold zero_pad. rewrite list_ascii_of_string_of_list_ascii.
  change chainhash.MaxHashStringSize with 64%nat.
  rewrite <- (list_ascii_length s) in *.
  set (src := list_ascii_of_string s) in *.
  assert (Hpad : length (repeat "0"%char (64 - length src) ++ src) = 64%nat)
    by (rewrite length_app, repeat_length; lia).
  rewrite Hpad.
  change (64 <? 64)%nat with false. change (Nat.even 64) with true.
  cbv iota.
  destruct (Nat.ltb_spec 64 (length src)) as [Hgt | _]; [lia |].
  destruct (Nat.even (length src)) eqn:Hev.
  - apply Nat.even_spec in Hev as [m Hm].
    replace (64 - length src)%nat with (2 * (32 - m))%nat by lia.
    rewrite hex_decode_zeros.
    destruct (chainhash.hex_decode src) as [bs | e] eqn:Hdec; [| reflexivity].
    apply hex_decode_length in Hdec.
    rewrite Hm, Nat.div2_double in Hdec.
    unfold byte in *. rewrite length_app, repeat_length, !Hdec.
    replace (32 - (32 - m + m))%nat with 0%nat by lia. reflexivity.
  - assert (Hodd : Nat.odd (length src) = true)
      by (rewrite <- Nat.negb_even, Hev; reflexivity).
    apply Nat.odd_spec in Hodd as [m Hm].
    replace (64 - length src)%nat with (S (2 * (31 - m))) by lia.
    rewrite repeat_snoc_app, hex_decode_zeros.
    destruct (chainhash.hex_decode ("0"%char :: src)) as [bs | e] eqn:Hdec;
      [| reflexivity].
    apply hex_decode_length in Hdec. cbn [length] in Hdec.
    rewrite Hm in Hdec.
    replace (S (2 * m + 1)) with (2 * (m + 1))%nat in Hdec by lia.
    rewrite Nat.div2_double in Hdec.
    unfold byte in *. rewrite length_app, repeat_length, !Hdec.
    replace (32 - (31 - m + (m + 1)))%nat with 0%nat by lia.
    replace (32 - (m + 1))%nat with (31 - m)%nat by lia. reflexivity.
Qed.

(** A short string stands for the hash of its zero-extended form: leading
    zeroes of a hash string may be left out. *)
Theorem mustParseHash_zero_pad (s : string) :
  mustParseHash (zero_pad s) = mustParseHash s.
Proof. now rewrite !mustParseHash_unfold, NewHashFromStr_zero_pad. Qed.

(** ** Start-up registration *)

Lemma Register_ok_inv (params : Params) (r r' : Registry) (u : unit) :
  Register params r = (Ok u, r') ->
  lookup_by_magic r (Net params) = None /\
  lookup_by_name r (Name params) = None /\
  r' = {| by_magic := <[Net params := params]> (by_magic r);
          by_name := <[Name params := params]> (by_name r) |}.
Proof.
  unfold Register.
  destruct (lookup_by_magic r (Net params)); [discriminate |].
  destruct (lookup_by_name r (Name params)); [discriminate |].
  cbn [is_present orb]. intros H. injection H as <-. auto.
Qed.

(** The registry that [init] builds on top of [r]. *)
Lemma init_ok_inv (r r' : Registry) :
  init r = Ok r' ->
  (lookup_by_magic r (Net JunkcoinMainNetParams) = None /\
   lookup_by_name r (Name JunkcoinMainNetParams) = None /\
   lookup_by_magic r (Net JunkcoinTestNetParams) = None /\
   lookup_by_name r (Name JunkcoinTestNetParams) = None) /\
  r' = {| by_magic :=
            <[Net JunkcoinTestNetParams := JunkcoinTestNetParams]>
              (<[Net JunkcoinMainNetParams := JunkcoinMainNetParams]>
                 (by_magic r));
          by_name :=
            <[Name JunkcoinTestNetParams := JunkcoinTestNetParams]>
              (<[Name JunkcoinMainNetParams := JunkcoinMainNetParams]>
                 (by_name r)) |}.
Proof.
  unfold init.
  destruct (Register JunkcoinMainNetParams r) as [[u1 | e1] r1] eqn:E1;
    [| discriminate].
  destruct (Register JunkcoinTestNetParams r1) as [[u2 | e2] r2] eqn:E2;
    [| discriminate].
  intros H. injection H as <-.
  apply Register_ok_inv in E1 as (Hm1 & Hn1 & ->).
  apply Register_ok_inv in E2 as (Hm2 & Hn2 & ->).
  unfold lookup_by_magic, lookup_by_name in *. cbn [by_magic by_name] in *.
  rewrite lookup_insert_ne in Hm2 by apply magics_differ.
  rewrite lookup_insert_ne in Hn2 by apply names_differ.
  auto.
Qed.

Lemma init_fresh (r : Registry) :
  lookup_by_magic r (Net JunkcoinMainNetParams) = None ->
  lookup_by_name r (Name JunkcoinMainNetParams) = None ->
  lookup_by_magic r (Net JunkcoinTestNetParams) = None ->
  lookup_by_name r (Name JunkcoinTestNetParams) = None ->
  exists r', init r = Ok r'.
Proof.
  intros Hm1 Hn1 Hm2 Hn2. unfold init.
  rewrite (Register_fresh JunkcoinMainNetParams r) by assumption.
  rewrite Register_fresh; [eauto | |].
  - unfold lookup_by_magic in *. cbn [by_magic].
    rewrite lookup_insert_ne by apply magics_differ. exact Hm2.
  - unfold lookup_by_name in *. cbn [by_name].
    rewrite lookup_insert_ne by apply names_differ. exact Hn2.
Qed.

(** [init] goes through exactly when neither magic and neither name of the
    two Junkcoin networks is in the registry yet; otherwise it stops on
    [DuplicateNetwork]. *)
Theorem init_ok_iff (r : Registry) :
  (exists r', init r = Ok r') <->
  lookup_by_magic r 0x6a756e6b = None /\
  lookup_by_name r "junkcoin-mainnet" = None /\
  lookup_by_magic r 0x6a756e6c = None /\
  lookup_by_name r "junkcoin-testnet" = None.
Proof.
  split.
  - intros [r' H]. apply init_ok_inv in H as [H _]. exact H.
  - intros (Hm1 & Hn1 & Hm2 & Hn2). now apply init_fresh.
Qed.

(** After [init] both networks are found under their magic and their name;
    every entry that was registered before is still there, and no other
    magic has appeared. *)
Theorem init_extends (r r' : Registry) :
  init r = Ok r' ->
  lookup_by_magic r' 0x6a756e6b = Some JunkcoinMainNetParams /\
  lookup_by_magic r' 0x6a756e6c = Some JunkcoinTestNetParams /\
  lookup_by_name r' "junkcoin-mainnet" = Some JunkcoinMainNetParams /\
  lookup_by_name r' "junkcoin-testnet" = Some JunkcoinTestNetParams /\
  (forall magic p, lookup_by_magic r magic = Some p ->
     lookup_by_magic r' magic = Some p) /\
  (forall name p, lookup_by_name r name = Some p ->
     lookup_by_name r' name = Some p) /\
  (forall magic, magic <> 0x6a756e6b -> magic <> 0x6a756e6c ->
     lookup_by_magic r' magic = lookup_by_magic r magic).
Proof.
  intros H. apply init_ok_inv in H as [(Hm1 & Hn1 & Hm2 & Hn2) ->].
  unfold lookup_by_magic, lookup_by_name in *. cbn [by_magic by_name].
  repeat match goal with |- _ /\ _ => apply conj end.
  - rewrite lookup_insert_ne by (symmetry; apply magics_differ).
    apply (lookup_insert_eq (M:=gmap Z)).
  - apply (lookup_insert_eq (M:=gmap Z)).
  - rewrite lookup_insert_ne by (symmetry; apply names_differ).
    apply (lookup_insert_eq (M:=gmap string)).
  - apply (lookup_insert_eq (M:=gmap string)).
  - intros magic p Hp.
    rewrite !lookup_insert_ne; [exact Hp | |]; intros <-; congruence.
  - intros name p Hp.
    rewrite !lookup_insert_ne; [exact Hp | |]; intros <-; congruence.
  - intros magic H1 H2.
    rewrite !lookup_insert_ne; [reflexivity | |]; intros <-;
      [apply H1 | apply H2]; reflexivity.
Qed.

Lemma init_extends_witness :
  lookup_by_magic registry_after_init 0x6a756e6b = Some JunkcoinMainNetParams /\
  lookup_by_name registry_after_init "junkcoin-testnet"
    = Some JunkcoinTestNetParams.
Proof.
  pose proof (init_extends empty_registry registry_after_init init_succeeds)
    as (H1 & _ & _ & H4 & _).
  exact (conj H1 H4).
Defined.

(** [init] cannot run twice: on the registry it has produced it stops on
    [DuplicateNetwork]. *)
Theorem init_twice_fails (r r' : Registry) :
  init r = Ok r' -> init r' = Err DuplicateNetwork.
Proof.
  intros H. apply init_ok_inv in H as [_ ->].
  unfold init. rewrite Register_duplicate; [reflexivity |].
  left. unfold lookup_by_magic. cbn [by_magic].
  rewrite lookup_insert_ne by (symmetry; apply magics_differ).
  rewrite (lookup_insert_eq (M:=gmap Z)). eauto.
Qed.

Lemma init_twice_fails_witness :
  init registry_after_init = Err DuplicateNetwork.
Proof. exact (init_twice_fails empty_registry registry_after_init init_succeeds). Defined.

(** [init] keeps a registry consistent: if every entry sat under its own
    magic and name in both maps before, the same holds afterwards, so magics
    and names stay pairwise unique. *)
Theorem init_consistent (r r' : Registry) :
  consistent r -> init r = Ok r' ->
  consistent r' /\
  (forall p q, registered r' p -> registered r' q ->
     Net p = Net q \/ Name p = Name q -> p = q).
Proof.
  intros Hc H.
  assert (Hc' : consistent r').
  { unfold init in H.
    destruct (Register JunkcoinMainNetParams r) as [[u1 | e1] r1] eqn:E1;
      [| discriminate].
    destruct (Register JunkcoinTestNetParams r1) as [[u2 | e2] r2] eqn:E2;
      [| discriminate].
    injection H as <-.
    replace r2 with (snd (Register JunkcoinTestNetParams r1))
      by (rewrite E2; reflexivity).
    apply Register_consistent.
    replace r1 with (snd (Register JunkcoinMainNetParams r))
      by (rewrite E1; reflexivity).
    apply Register_consistent. exact Hc. }
  split; [exact Hc' |].
  intros p q. apply consistent_unique. exact Hc'.
Qed.

Lemma init_consistent_witness : consistent registry_after_init.
Proof.
  exact (proj1 (init_consistent empty_registry registry_after_init
                  consistent_empty init_succeeds)).
Defined.

(** ** Block and transaction hashes *)

Lemma le_bytes_length (n : nat) (x : Z) : length (le_bytes n x) = n.
Proof.
  revert x. induction n as [| n IH]; intros x; cbn; [reflexivity |].
  now rewrite IH.
Qed.

Lemma le_bytes_is_byte (n : nat) (x : Z) : Forall is_byte (le_bytes n x).
Proof.
  revert x. induction n as [| n IH]; intros x; cbn; constructor.
  - unfold is_byte. apply Z.mod_pos_bound. lia.
  - apply IH.
Qed.

Lemma be_bytes_length (n : nat) (x : Z) : length (be_bytes n x) = n.
Proof. unfold be_bytes. now rewrite length_rev, le_bytes_length. Qed.

Lemma be_bytes_is_byte (n : nat) (x : Z) : Forall is_byte (be_bytes n x).
Proof. unfold be_bytes. apply Forall_rev, le_bytes_is_byte. Qed.

Lemma block1_length (h : list Z) (p : list byte) :
  length (sha256.block1 h p) = 8%nat.
Proof. unfold sha256.block1. now destruct (sha256.rounds _ _ _). Qed.

Lemma block_length (n : nat) (h : list Z) (p : list byte) :
  length h = 8%nat -> length (sha256.block n h p) = 8%nat.
Proof.
  revert h p. induction n as [| n IH]; intros h p Hh; cbn [sha256.block];
    [exact Hh |].
  apply IH, block1_length.
Qed.

Lemma concat_be_bytes_length (ws : list Z) :
  length (concat (map (be_bytes 4) ws)) = (4 * length ws)%nat.
Proof.
  induction ws as [| w ws IH]; [reflexivity |].
  cbn [map concat length]. rewrite length_app, be_bytes_length, IH. lia.
Qed.

Lemma concat_be_bytes_is_byte (ws : list Z) :
  Forall is_byte (concat (map (be_bytes 4) ws)).
Proof.
  induction ws as [| w ws IH]; [constructor |].
  cbn [map concat]. apply Forall_app. split; [apply be_bytes_is_byte | exact IH].
Qed.

(** A SHA-256 digest has 32 bytes, whatever the length of the data. *)
Lemma Sum256_length (data : list byte) :
  length (sha256.Sum256 data) = 32%nat.
Proof.
  unfold sha256.Sum256. cbv zeta.
  rewrite concat_be_bytes_length, block_length; reflexivity.
Qed.

Lemma Sum256_is_byte (data : list byte) : Forall is_byte (sha256.Sum256 data).
Proof. unfold sha256.Sum256. cbv zeta. apply concat_be_bytes_is_byte. Qed.

(** The hash computed for any block, and so each genesis hash that the
    initialisers store, is a full hash: 32 bytes, each below 256, whatever
    the header holds. *)
Theorem BlockHash_wellformed (msg : wire.MsgBlock) :
  length (wire.BlockHash msg) = chainhash.HashSize /\
  Forall is_byte (wire.BlockHash msg).
Proof.
  unfold wire.BlockHash, wire.HeaderBlockHash, chainhash.DoubleHashH.
  split; [apply Sum256_length | apply Sum256_is_byte].
Qed.

(** In both genesis blocks the merkle root of the header is the hash of the
    block's single transaction, [genesisCoinbaseTx]. *)
Theorem genesis_merkle_root_is_coinbase_hash :
  map (fun p => txwire.TxHash (load_tx p))
      (wire.Transactions junkcoinGenesisBlock)
    = [wire.MerkleRoot (wire.Header junkcoinGenesisBlock)] /\
  map (fun p => txwire.TxHash (load_tx p))
      (wire.Transactions junkcoinTestNetGenesisBlock)
    = [wire.MerkleRoot (wire.Header junkcoinTestNetGenesisBlock)].
Proof. split; vm_compute; reflexivity. Qed.

(** The testnet genesis block does not match the testnet checkpoint table
    either: its stored hash is 0000...4943 while the entry at height 0 is
    a2ef...64c6, the same entry as on mainnet. *)
Theorem testnet_genesis_checkpoint_mismatch :
  verify JunkcoinTestNetParams 0
    (load_hash (GenesisHash JunkcoinTestNetParams)) = Err CheckpointMismatch /\
  checkpoint_at JunkcoinTestNetParams 0 = checkpoint_at JunkcoinMainNetParams 0.
Proof.
  split; [| reflexivity].
  destruct checkpoint_at_genesis as (c & Hc & Hs).
  apply (verify_mismatch _ _ c); [exact Hc |].
  rewrite load_hash_test.
  intros Heq. apply (f_equal chainhash.String) in Heq.
  rewrite Hs, junkcoinTestNetGenesisHash_value in Heq. discriminate Heq.
Qed.

(** ** Checkpoint tables and the policy *)

Lemma NoDup_map_inj {A B} (f : A -> B) (l : list A) (a b : A) :
  NoDup (map f l) -> In a l -> In b l -> f a = f b -> a = b.
Proof.
  induction l as [| x l IH]; cbn [map]; intros Hnd Ha Hb Hf; [destruct Ha |].
  inversion Hnd as [| ? ? Hx Hnd']; subst.
  destruct Ha as [-> | Ha], Hb as [-> | Hb].
  - reflexivity.
  - exfalso. apply Hx, list_elem_of_In. rewrite Hf. now apply in_map.
  - exfalso. apply Hx, list_elem_of_In. rewrite <- Hf. now apply in_map.
  - now apply IH.
Qed.

Lemma checkpoint_at_Some (params : Params) (height : Z) (c : Checkpoint) :
  checkpoint_at params height = Some c ->
  In c (Checkpoints params) /\ Height c = height.
Proof.
  unfold checkpoint_at. intros H. apply find_some in H as [Hin Heq].
  split; [exact Hin | now apply Z.eqb_eq].
Qed.

Lemma checkpoint_at_None (params : Params) (height : Z) (c : Checkpoint) :
  checkpoint_at params height = None ->
  In c (Checkpoints params) -> Height c <> height.
Proof.
  unfold checkpoint_at. intros H Hin.
  apply (find_none _ _ H) in Hin. now apply Z.eqb_neq.
Qed.

(** With no height listed twice, the policy rejects a hash exactly when the
    table holds an entry at that height with another hash; every pair of
    the table is accepted, and so is any hash at a height without entry. *)
Theorem verify_fails_iff (params : Params) (height : Z)
    (hash : chainhash.Hash) :
  NoDup (checkpoint_heights params) ->
  (verify params height hash = Err CheckpointMismatch <->
   exists c, In c (Checkpoints params) /\ Height c = height /\
             CheckpointHash c <> hash).
Proof.
  intros Hnd. unfold verify.
  destruct (checkpoint_at params height) as [c |] eqn:Hc.
  - apply checkpoint_at_Some in Hc as [Hin Hh].
    destruct (hash_eqb hash (CheckpointHash c)) eqn:He.
    + apply hash_eqb_eq in He. split; [discriminate |].
      intros (c' & Hin' & Hh' & Hne). exfalso. apply Hne.
      rewrite (NoDup_map_inj Height _ c' c Hnd Hin' Hin) by congruence.
      now symmetry.
    + apply hash_eqb_neq in He. split; [| reflexivity].
      intros _. exists c. repeat split; [exact Hin | exact Hh |].
      intros Heq. apply He. now symmetry.
  - split; [discriminate |].
    intros (c & Hin & Hh & _). exfalso.
    exact (checkpoint_at_None _ _ c Hc Hin Hh).
Qed.

Lemma mainnet_heights_NoDup : NoDup (checkpoint_heights JunkcoinMainNetParams).
Proof.
  apply sorted_heights_NoDup, strictly_increasing_sorted. reflexivity.
Qed.

Lemma verify_fails_iff_witness :
  verify JunkcoinMainNetParams 53 chainhash.zero = Err CheckpointMismatch <->
  exists c, In c (Checkpoints JunkcoinMainNetParams) /\ Height c = 53 /\
            CheckpointHash c <> chainhash.zero.
Proof. exact (verify_fails_iff _ 53 chainhash.zero mainnet_heights_NoDup). Defined.

Lemma last_cons_default {A} (l : list A) (a b : A) :
  List.last (b :: l) a = List.last l b.
Proof.
  revert a b. induction l as [| c l IH]; intros a b; [reflexivity |].
  change (List.last (b :: c :: l) a) with (List.last (c :: l) a).
  now rewrite !IH.
Qed.

Lemma sorted_last_max (hs : list Z) (a : Z) :
  StronglySorted Z.lt (a :: hs) ->
  forall x, In x (a :: hs) -> x <= List.last hs a.
Proof.
  revert a. induction hs as [| b hs IH]; intros a Hs x Hin.
  - destruct Hin as [<- | []]. cbn. lia.
  - inversion Hs as [| ? ? Hs' Hall]; subst.
    rewrite last_cons_default.
    destruct Hin as [<- | Hin]; [| now apply IH].
    inversion Hall as [| ? ? Hab _]; subst.
    specialize (IH b Hs' b (or_introl eq_refl)). lia.
Qed.

Lemma last_map_Height (cs : list Checkpoint) (c : Checkpoint) :
  Height (List.last cs c) = List.last (map Height cs) (Height c).
Proof.
  revert c. induction cs as [| c' cs IH]; intros c; [reflexivity |].
  cbn [map]. rewrite !last_cons_default. apply IH.
Qed.

Lemma last_In {A} (l : list A) (a : A) : In (List.last l a) (a :: l).
Proof.
  revert a. induction l as [| b l IH]; intros a; [now left |].
  rewrite last_cons_default. right. apply IH.
Qed.

(** In a table with strictly increasing heights the last checkpoint height
    is the highest height of the table. *)
Theorem last_checkpoint_is_highest (params : Params) (h : Z) :
  strictly_increasing (checkpoint_heights params) = true ->
  last_checkpoint_height params = Some h ->
  In h (checkpoint_heights params) /\
  forall c, In c (Checkpoints params) -> Height c <= h.
Proof.
  unfold last_checkpoint_height, checkpoint_heights.
  destruct (Checkpoints params) as [| c0 cs]; [discriminate |].
  intros Hinc H. injection H as <-.
  apply strictly_increasing_sorted in Hinc. cbn [map] in Hinc.
  rewrite last_map_Height. split.
  - cbn [map]. apply last_In.
  - intros c Hin. apply (sorted_last_max _ _ Hinc).
    change (Height c0 :: map Height cs) with (map Height (c0 :: cs)).
    now apply in_map.
Qed.

Lemma last_checkpoint_is_highest_witness :
  In 168312 (checkpoint_heights JunkcoinMainNetParams) /\
  forall c, In c (Checkpoints JunkcoinMainNetParams) -> Height c <= 168312.
Proof.
  apply last_checkpoint_is_highest; reflexivity.
Defined.

(** ** Retarget bounds *)

(** Between the clamp bounds, the scaled target stays between the old
    target divided by the factor and the old target times the factor. *)
Lemma scaled_within_factor (old c T f m : Z) :
  0 <= old -> 0 < f -> 0 < m -> T = f * m -> m <= c <= T * f ->
  old / f <= old * c / T <= old * f.
Proof.
  intros Hold Hf Hm -> [Hlo Hhi]. split.
  - rewrite <- (Z.div_mul_cancel_r old f m) by lia.
    apply Z.div_le_mono; [lia | nia].
  - apply Z.div_le_upper_bound; [lia | nia].
Qed.

Lemma scale_target_within_factor (params : Params) (old : Z)
    (actual : time.Duration) :
  0 <= old ->
  0 < RetargetAdjustmentFactor params ->
  0 < min_retarget_timespan params ->
  TargetTimespan params =
    RetargetAdjustmentFactor params * min_retarget_timespan params ->
  Z.min (old / RetargetAdjustmentFactor params) (PowLimit params)
  <= scale_target params old (clamp_timespan params actual)
  <= Z.min (old * RetargetAdjustmentFactor params) (PowLimit params).
Proof.
  intros Hold Hf Hm HT.
  rewrite scale_target_min.
  assert (Hb : min_retarget_timespan params <= clamp_timespan params actual
               <= max_retarget_timespan params).
  { apply clamp_timespan_bounds. unfold max_retarget_timespan. nia. }
  unfold max_retarget_timespan in Hb.
  pose proof (scaled_within_factor old (clamp_timespan params actual)
                (TargetTimespan params) (RetargetAdjustmentFactor params)
                (min_retarget_timespan params) Hold Hf Hm HT Hb).
  lia.
Qed.

(** On both networks a retarget moves the target by at most the factor 4
    in either direction ("25% less, 400% more"), whatever timespan was
    observed, and never above the proof-of-work limit. *)
Theorem retarget_within_factor (old : Z) (actual : time.Duration) :
  0 <= old ->
  (Z.min (old / 4) (2 ^ 224 - 1)
   <= scale_target JunkcoinMainNetParams old
        (clamp_timespan JunkcoinMainNetParams actual)
   <= Z.min (old * 4) (2 ^ 224 - 1)) /\
  (Z.min (old / 4) (2 ^ 224 - 1)
   <= scale_target JunkcoinTestNetParams old
        (clamp_timespan JunkcoinTestNetParams actual)
   <= Z.min (old * 4) (2 ^ 224 - 1)).
Proof.
  intros Hold.
  rewrite <- junkcoinMainPowLimit_value at 1 2.
  rewrite <- junkcoinTestNetPowLimit_value.
  split.
  - apply (scale_target_within_factor JunkcoinMainNetParams old actual Hold);
      reflexivity.
  - apply (scale_target_within_factor JunkcoinTestNetParams old actual Hold);
      reflexivity.
Qed.

Lemma retarget_within_factor_witness :
  Z.min (CompactToBig 0x1c00ffff / 4) (2 ^ 224 - 1)
  <= scale_target JunkcoinMainNetParams (CompactToBig 0x1c00ffff)
       (clamp_timespan JunkcoinMainNetParams time.Hour)
  <= Z.min (CompactToBig 0x1c00ffff * 4) (2 ^ 224 - 1).
Proof.
  apply (retarget_within_factor (CompactToBig 0x1c00ffff) time.Hour).
  vm_compute. discriminate.
Defined.

(** ** The two parameter sets side by side *)


(** Nothing identifies both networks: names, magics, ports, segwit
    prefixes and extended-key prefixes differ, the ten address version
    bytes of the two sets are pairwise distinct, and the magics spell
    "junk" and "junl". *)
Theorem networks_are_distinguishable :
  Name JunkcoinMainNetParams <> Name JunkcoinTestNetParams /\
  Net JunkcoinMainNetParams <> Net JunkcoinTestNetParams /\
  DefaultPort JunkcoinMainNetParams <> DefaultPort JunkcoinTestNetParams /\
  Bech32HRPSegwit JunkcoinMainNetParams
    <> Bech32HRPSegwit JunkcoinTestNetParams /\
  NoDup [ HDPrivateKeyID JunkcoinMainNetParams;
          HDPublicKeyID JunkcoinMainNetParams;
          HDPrivateKeyID JunkcoinTestNetParams;
          HDPublicKeyID JunkcoinTestNetParams ] /\
  NoDup (address_ids JunkcoinMainNetParams
         ++ address_ids JunkcoinTestNetParams) /\
  be_bytes 4 (Net JunkcoinMainNetParams) = bytes_of_string "junk" /\
  be_bytes 4 (Net JunkcoinTestNetParams) = bytes_of_string "junl".
Proof.
  repeat apply conj; try discriminate; try reflexivity;
    apply (bool_decide_unpack _); vm_compute; exact I.
Qed.
